(** * Reconciler (lib/reconciler/index.js): a shallow embedding

    The reconciler is a JavaScript class whose behaviour depends on the
    dynamic semantics of the language: reads of properties that were never
    written, arithmetic on [undefined], loose comparisons, identifiers that
    are not bound.  The embedding therefore keeps JavaScript values dynamic
    ([jsval]) and writes the language's coercions out.

    Numbers are the integer fragment of the JavaScript numbers ([Z]) together
    with [NaN]; block indexes, depths and delays are integers.

    Embedded: the constructor with [handleSeenAccounts], [compareBalance],
    [bestBalance] with [getCurrencyBalance], [accountReconciliation],
    [ContainsAccountCurrency], [inactiveAccountQueue] and the bodies of the
    two loops.  Each [async] method is read as the sequence of its effects;
    the interleaving of the two loops at their [await]s is not modelled.
    [queueChanges], the static [extractAmount] (which no instance method
    can reach) and the nested class [AccountCurrency] follow the examples;
    [reconcile], which only starts the two loops side by side, is left out. *)

From Stdlib Require Import ZArith DecimalString.
From stdpp Require Import base strings list gmap pretty.

Local Open Scope Z_scope.
Local Open Scope string_scope.

#[local] Set Warnings "-register-all".

(** ** JavaScript values *)

Inductive jsval : Type :=
| VUndef
| VNull
| VBool (b : bool)
| VNum (n : Z)
| VNaN
| VStr (s : string)
| VObj (fields : list (string * jsval))   (* a plain object literal *)
| VHost (repr : string).                  (* any other object (promise, function,
                                             array); [repr] is its string
                                             conversion *)

(** Thrown values.  [ReconcilerError] is imported from lib/errors; the
    reconciler constructs it as [new ReconcilerError(message, type)] and
    dispatches on [e.type].  The message is never consulted and is left out. *)
Inductive exn : Type :=
| ReconcilerError (type : string)
| TypeError
| ReferenceError
| Thrown (v : jsval).

Definition result (A : Type) : Type := exn + A.

Definition RECONCILIATION_INACTIVE_SLEEP_MS : jsval := VNum 5000.

Definition RECONCILIATION_ACTIVE : string := "ACTIVE".
Definition RECONCILIATION_INACTIVE : string := "INACTIVE".

Definition RECONCILIATION_ERROR_HEAD_BEHIND_LIVE : string := "ERROR_HEAD_BEHIND_LIVE".
Definition RECONCILIATION_ERROR_ACCOUNT_UPDATED : string := "ACCOUNT_UPDATED".
Definition RECONCILIATION_ERROR_BLOCK_GONE : string := "BLOCK_GONE".

(** [o[k]] on an association list: the first binding of [k]. *)
Fixpoint assoc (k : string) (fields : list (string * jsval)) : option jsval :=
  match fields with
  | [] => None
  | (k', v) :: rest => if String.eqb k k' then Some v else assoc k rest
  end.

(** [v.k].  Reading a property of [undefined] or [null] throws a TypeError;
    a primitive or a host object has none of the properties the reconciler
    reads ([index], [hash], [value], [block], [entry], [last_check], ...). *)
Definition get_prop (v : jsval) (k : string) : result jsval :=
  match v with
  | VUndef | VNull => inl TypeError
  | VObj fields => inr (default VUndef (assoc k fields))
  | _ => inr VUndef
  end.

(** ToBoolean. *)
Definition truthy (v : jsval) : bool :=
  match v with
  | VUndef | VNull | VNaN => false
  | VBool b => b
  | VNum n => negb (Z.eqb n 0)
  | VStr s => negb (String.eqb s "")
  | VObj _ | VHost _ => true
  end.

(** [v == null] *)
Definition loose_eq_null (v : jsval) : bool :=
  match v with
  | VUndef | VNull => true
  | _ => false
  end.

(** [v != "0"].  The loose comparison converts a number or a boolean operand
    and the string ["0"] to numbers, compares two strings as strings, and a
    plain object through its string conversion; [undefined] and [null] are
    loosely equal to each other only. *)
Definition loose_neq_zero_string (v : jsval) : bool :=
  match v with
  | VUndef | VNull | VNaN => true
  | VBool b => b
  | VNum n => negb (Z.eqb n 0)
  | VStr s => negb (String.eqb s "0")
  | VObj _ => true
  | VHost repr => negb (String.eqb repr "0")
  end.

Inductive jsnum : Type := Num (n : Z) | NaN.

(** What the language fixes but the integer fragment does not: StringToNumber,
    the code-unit order on strings, and the names every object literal
    inherits from [Object.prototype] ([constructor], [toString], ...). *)
Class Lang : Type := {
  StringToNumber : string -> jsnum;
  StringLess : string -> string -> bool;
  inherited : string -> bool;
}.

(** lib/utils, imported by the reconciler. *)
Class Utils : Type := {
  Hash : jsval -> string;
  SubtractValues : jsval -> jsval -> result jsval;
  constructPartialBlockIdentifier : jsval -> result jsval;
}.

Section Coercions.

Context {L : Lang}.

(** ToPrimitive: a plain object converts to ["[object Object]"]. *)
Definition to_primitive (v : jsval) : jsval :=
  match v with
  | VObj _ => VStr "[object Object]"
  | VHost repr => VStr repr
  | _ => v
  end.

(** ToNumber, after ToPrimitive. *)
Definition to_number (v : jsval) : jsnum :=
  match to_primitive v with
  | VNull => Num 0
  | VBool b => Num (if b then 1 else 0)
  | VNum n => Num n
  | VStr s => StringToNumber s
  | _ => NaN
  end.

(** ToString, after ToPrimitive. *)
Definition to_string (v : jsval) : string :=
  match to_primitive v with
  | VUndef => "undefined"
  | VNull => "null"
  | VBool b => if b then "true" else "false"
  | VNum n => pretty n
  | VNaN => "NaN"
  | VStr s => s
  | VObj _ | VHost _ => ""
  end.

(** [a < b] *)
Definition js_lt (a b : jsval) : bool :=
  match to_primitive a, to_primitive b with
  | VStr s, VStr t => StringLess s t
  | pa, pb =>
      match to_number pa, to_number pb with
      | Num x, Num y => Z.ltb x y
      | _, _ => false
      end
  end.

(** [a > b] *)
Definition js_gt (a b : jsval) : bool := js_lt b a.

(** [a - b] *)
Definition js_sub (a b : jsval) : jsval :=
  match to_number a, to_number b with
  | Num x, Num y => VNum (x - y)
  | _, _ => VNaN
  end.

(** [a + b]: concatenation as soon as one operand is a string. *)
Definition js_add (a b : jsval) : jsval :=
  match to_primitive a, to_primitive b with
  | VStr s, pb => VStr (s ++ to_string pb)
  | pa, VStr t => VStr (to_string pa ++ t)
  | pa, pb =>
      match to_number pa, to_number pb with
      | Num x, Num y => VNum (x + y)
      | _, _ => VNaN
      end
  end.

(** [map[k]] on an object literal used as a map: an own property, or else a
    member inherited from [Object.prototype]. *)
Definition map_get (map : gmap string jsval) (k : string) : jsval :=
  match map !! k with
  | Some v => v
  | None => if inherited k then VHost "function" else VUndef
  end.

End Coercions.

(** ** The collaborators and the reconciler object

    Helper, handler and fetcher are supplied by the caller.  Their answers
    may change from one call to the next, so each call threads an external
    world [W]; they are taken not to touch the reconciler's own fields. *)

(** The outcome of a call expression before any [await]: the callee throws,
    returns a value, or (an async function) returns a promise that settles. *)
Inductive call_result : Type :=
| SyncThrow (e : exn)
| SyncReturn (v : jsval)
| Promise (settled : result jsval).

(** [await call] *)
Definition await (c : call_result) : result jsval :=
  match c with
  | SyncThrow e => inl e
  | SyncReturn v => inr v
  | Promise settled => settled
  end.

(** [call] used without [await] inside a [try]: a synchronous throw is
    caught, a promise is kept as an object.  What becomes of a promise that
    rejects while nobody awaits it (an unhandled rejection, for the host to
    deal with) is outside the embedding. *)
Definition no_await (c : call_result) : result jsval :=
  match c with
  | SyncThrow e => inl e
  | SyncReturn v => inr v
  | Promise _ => inr (VHost "[object Promise]")
  end.

Inductive event : Type :=
| EvSleep (ms : jsval)
| EvLog
| EvFetch (network account partialBlockIdentifier : jsval)
| EvFailed (type : string) (account currency cachedBalance amount block : jsval)
| EvSucceeded (type : string) (account currency amount block : jsval).

Section Reconciler.

Context {L : Lang} {U : Utils} {W : Type}.

Record Helper : Type := {
  currentBlock : W -> call_result * W;
  blockExists : jsval -> W -> result jsval * W;
  accountBalance : jsval -> jsval -> jsval -> W -> result jsval * W;
}.

Record Handler : Type := {
  reconciliationFailed :
    string -> jsval -> jsval -> jsval -> jsval -> jsval -> W -> result jsval * W;
  reconciliationSucceeded :
    string -> jsval -> jsval -> jsval -> jsval -> W -> result jsval * W;
}.

Record Fetcher : Type := {
  AcountBalanceRetry : jsval -> jsval -> jsval -> W -> result jsval * W;
}.

Record RosettaReconciler : Type := {
  network : jsval;
  helper : Helper;
  handler : Handler;
  fetcher : Fetcher;
  highWaterMark : jsval;
  lookupBalanceByBlock : jsval;
  interestingAccounts : list jsval;
  inactiveQueue : list jsval;
  seenAccounts : gmap string jsval;
  requiredDepthInactive : jsval;
  waitToCheckDiff : jsval;
  waitToCheckDiffSleep : jsval;
  changeQueue : list jsval;
}.

Definition set_highWaterMark (v : jsval) (r : RosettaReconciler) : RosettaReconciler :=
  {| network := network r; helper := helper r; handler := handler r;
     fetcher := fetcher r; highWaterMark := v;
     lookupBalanceByBlock := lookupBalanceByBlock r;
     interestingAccounts := interestingAccounts r;
     inactiveQueue := inactiveQueue r; seenAccounts := seenAccounts r;
     requiredDepthInactive := requiredDepthInactive r;
     waitToCheckDiff := waitToCheckDiff r;
     waitToCheckDiffSleep := waitToCheckDiffSleep r;
     changeQueue := changeQueue r |}.

Definition set_inactiveQueue (q : list jsval) (r : RosettaReconciler) : RosettaReconciler :=
  {| network := network r; helper := helper r; handler := handler r;
     fetcher := fetcher r; highWaterMark := highWaterMark r;
     lookupBalanceByBlock := lookupBalanceByBlock r;
     interestingAccounts := interestingAccounts r;
     inactiveQueue := q; seenAccounts := seenAccounts r;
     requiredDepthInactive := requiredDepthInactive r;
     waitToCheckDiff := waitToCheckDiff r;
     waitToCheckDiffSleep := waitToCheckDiffSleep r;
     changeQueue := changeQueue r |}.

Definition set_seenAccounts (m : gmap string jsval) (r : RosettaReconciler) : RosettaReconciler :=
  {| network := network r; helper := helper r; handler := handler r;
     fetcher := fetcher r; highWaterMark := highWaterMark r;
     lookupBalanceByBlock := lookupBalanceByBlock r;
     interestingAccounts := interestingAccounts r;
     inactiveQueue := inactiveQueue r; seenAccounts := m;
     requiredDepthInactive := requiredDepthInactive r;
     waitToCheckDiff := waitToCheckDiff r;
     waitToCheckDiffSleep := waitToCheckDiffSleep r;
     changeQueue := changeQueue r |}.

Definition set_changeQueue (q : list jsval) (r : RosettaReconciler) : RosettaReconciler :=
  {| network := network r; helper := helper r; handler := handler r;
     fetcher := fetcher r; highWaterMark := highWaterMark r;
     lookupBalanceByBlock := lookupBalanceByBlock r;
     interestingAccounts := interestingAccounts r;
     inactiveQueue := inactiveQueue r; seenAccounts := seenAccounts r;
     requiredDepthInactive := requiredDepthInactive r;
     waitToCheckDiff := waitToCheckDiff r;
     waitToCheckDiffSleep := waitToCheckDiffSleep r;
     changeQueue := q |}.

(** ** The monad of a method body

    A method reads and writes [this], calls the collaborators, and either
    returns, throws, or (a loop cut off by its fuel) has not finished.  The
    calls it makes on the handler, the fetcher and the timer are recorded in
    order. *)

Inductive outcome (A : Type) : Type :=
| Ok (a : A)
| Throw (e : exn)
| OutOfFuel.

#[global] Arguments Ok {A} a.
#[global] Arguments Throw {A} e.
#[global] Arguments OutOfFuel {A}.

Definition M (A : Type) : Type :=
  RosettaReconciler -> W -> outcome A * RosettaReconciler * W * list event.

Definition ret {A} (a : A) : M A := fun r w => (Ok a, r, w, []).

Definition bind {A B} (m : M A) (k : A -> M B) : M B :=
  fun r w =>
    match m r w with
    | (Ok a, r1, w1, t1) =>
        match k a r1 w1 with
        | (o, r2, w2, t2) => (o, r2, w2, (t1 ++ t2)%list)
        end
    | (Throw e, r1, w1, t1) => (Throw e, r1, w1, t1)
    | (OutOfFuel, r1, w1, t1) => (OutOfFuel, r1, w1, t1)
    end.

Definition throw {A} (e : exn) : M A := fun r w => (Throw e, r, w, []).

Definition out_of_fuel {A} : M A := fun r w => (OutOfFuel, r, w, []).

Definition lift {A} (x : result A) : M A :=
  match x with
  | inl e => throw e
  | inr a => ret a
  end.

Definition this : M RosettaReconciler := fun r w => (Ok r, r, w, []).

Definition modify (f : RosettaReconciler -> RosettaReconciler) : M unit :=
  fun r w => (Ok tt, f r, w, []).

Definition emit (e : event) : M unit := fun r w => (Ok tt, r, w, [e]).

(** An awaited call on a collaborator. *)
Definition extern (f : W -> result jsval * W) : M jsval :=
  fun r w =>
    match f w with
    | (inl e, w1) => (Throw e, r, w1, [])
    | (inr v, w1) => (Ok v, r, w1, [])
    end.

(** A call expression on a collaborator, not yet awaited. *)
Definition invoke (f : W -> call_result * W) : M call_result :=
  fun r w => let '(c, w1) := f w in (Ok c, r, w1, []).

(** [try { m } catch (e) { h e }] *)
Definition try_catch {A} (m : M A) (h : exn -> M A) : M A :=
  fun r w =>
    match m r w with
    | (Throw e, r1, w1, t1) =>
        match h e r1 w1 with
        | (o, r2, w2, t2) => (o, r2, w2, (t1 ++ t2)%list)
        end
    | other => other
    end.

End Reconciler.

#[global] Arguments Helper : clear implicits.
#[global] Arguments Handler : clear implicits.
#[global] Arguments Fetcher : clear implicits.
#[global] Arguments RosettaReconciler : clear implicits.
#[global] Arguments M : clear implicits.

Declare Scope js_scope.
Delimit Scope js_scope with js.

Notation "x <~ m ;; k" := (bind m (fun x => k))
  (at level 100, m at next level, right associativity) : js_scope.
Notation "m ;;; k" := (bind m (fun _ => k))
  (at level 100, k at level 200, right associativity) : js_scope.

Local Open Scope js_scope.

(** ** Construction *)

(** The constructor's argument object.  A configuration key is [None] when
    the caller's object does not have it. *)
Record Args {W : Type} : Type := {
  arg_networkIdentifier : jsval;
  arg_helper : Helper W;
  arg_handler : Handler W;
  arg_fetcher : Fetcher W;
  arg_highWaterMark : option jsval;
  arg_lookupBalanceByBlock : option jsval;
  arg_requiredDepthInactive : option jsval;
  arg_waitToCheckDiff : option jsval;
  arg_waitToCheckDiffSleep : option jsval;
  arg_withSeenAccounts : option (list jsval);
  arg_interestingAccounts : option (list jsval);
}.

#[global] Arguments Args : clear implicits.

Record Configuration : Type := {
  cfg_highWaterMark : jsval;
  cfg_lookupBalanceByBlock : jsval;
  cfg_requiredDepthInactive : jsval;
  cfg_waitToCheckDiff : jsval;
  cfg_waitToCheckDiffSleep : jsval;
  cfg_withSeenAccounts : list jsval;
  cfg_interestingAccounts : option (list jsval);
}.

Definition defaults : Configuration :=
  {| cfg_highWaterMark := VNum (-1);
     cfg_lookupBalanceByBlock := VBool true;
     cfg_requiredDepthInactive := VNum 500;
     cfg_waitToCheckDiff := VNum (10 * 1000);
     cfg_waitToCheckDiffSleep := VNum 5000;
     cfg_withSeenAccounts := [];
     cfg_interestingAccounts := None |}.

(** [Object.assign({}, d, args)]: a key of [args] wins over the default. *)
Definition assign {W} (d : Configuration) (args : Args W) : Configuration :=
  {| cfg_highWaterMark := default (cfg_highWaterMark d) (arg_highWaterMark args);
     cfg_lookupBalanceByBlock :=
       default (cfg_lookupBalanceByBlock d) (arg_lookupBalanceByBlock args);
     cfg_requiredDepthInactive :=
       default (cfg_requiredDepthInactive d) (arg_requiredDepthInactive args);
     cfg_waitToCheckDiff := default (cfg_waitToCheckDiff d) (arg_waitToCheckDiff args);
     cfg_waitToCheckDiffSleep :=
       default (cfg_waitToCheckDiffSleep d) (arg_waitToCheckDiffSleep args);
     cfg_withSeenAccounts := default (cfg_withSeenAccounts d) (arg_withSeenAccounts args);
     cfg_interestingAccounts :=
       match arg_interestingAccounts args with
       | Some l => Some l
       | None => cfg_interestingAccounts d
       end |}.

Section Methods.

Context {L : Lang} {U : Utils} {W : Type}.

(** [handleSeenAccounts]: starting from the queue [this.inactiveQueue] and an
    empty [seen], every seeded account is pushed as [{ entry: s }] and
    recorded under its hash.  Returns the queue and [seen]. *)
Definition handleSeenAccounts (queue : list jsval) (seenAccounts : list jsval)
  : list jsval * gmap string jsval :=
  fold_left
    (fun '(q, seen) s =>
       ((q ++ [VObj [("entry", s)]])%list, <[Hash s := VObj []]> seen))
    seenAccounts (queue, ∅).

Definition constructor (args : Args W) : RosettaReconciler W :=
  let configuration := assign defaults args in
  let '(queue, seen) := handleSeenAccounts [] (cfg_withSeenAccounts configuration) in
  {| network := arg_networkIdentifier args;
     helper := arg_helper args;
     handler := arg_handler args;
     fetcher := arg_fetcher args;
     highWaterMark := cfg_lookupBalanceByBlock configuration;
     lookupBalanceByBlock := cfg_lookupBalanceByBlock configuration;
     interestingAccounts := default [] (cfg_interestingAccounts configuration);
     inactiveQueue := queue;
     seenAccounts := seen;
     requiredDepthInactive := cfg_requiredDepthInactive configuration;
     waitToCheckDiff := cfg_waitToCheckDiff configuration;
     waitToCheckDiffSleep := cfg_waitToCheckDiffSleep configuration;
     changeQueue := [] |}.

(** ** Small steps shared by the methods *)

Definition prop (v : jsval) (k : string) : M W jsval := lift (get_prop v k).

Definition sleep (ms : jsval) : M W unit := emit (EvSleep ms).

Definition Logger_info : M W unit := emit EvLog.

(** [array.shift()]: [undefined] on an empty array. *)
Definition shift (q : list jsval) : jsval * list jsval :=
  match q with
  | [] => (VUndef, [])
  | x :: rest => (x, rest)
  end.

(** ** compareBalance *)

Record comparison : Type := {
  difference : jsval;
  cachedBalance : jsval;
  headIndex : jsval;
}.

Definition compareBalance (accountIdentifier currency amount blockIdentifier : jsval)
  : M W comparison :=
  r <~ this ;;
  call <~ invoke (currentBlock (helper r)) ;;
  head <~ lift (await call) ;;
  bi <~ prop blockIdentifier "index" ;;
  hi <~ prop head "index" ;;
  if js_gt bi hi then throw (ReconcilerError RECONCILIATION_ERROR_HEAD_BEHIND_LIVE)
  else
    exists_ <~ extern (blockExists (helper r) blockIdentifier) ;;
    if negb (truthy exists_) then throw (ReconcilerError RECONCILIATION_ERROR_BLOCK_GONE)
    else
      balance <~ extern (accountBalance (helper r) accountIdentifier currency head) ;;
      cached <~ prop balance "cachedBalance" ;;
      balanceBlock <~ prop balance "balanceBlock" ;;
      bi' <~ prop blockIdentifier "index" ;;
      bbi <~ prop balanceBlock "index" ;;
      if js_lt bi' bbi then throw (ReconcilerError RECONCILIATION_ERROR_ACCOUNT_UPDATED)
      else
        value <~ prop cached "value" ;;
        diff <~ lift (SubtractValues value amount) ;;
        value' <~ prop cached "value" ;;
        hi' <~ prop head "index" ;;
        ret {| difference := diff; cachedBalance := value'; headIndex := hi' |}.

(** ** bestBalance and getCurrencyBalance *)

(** [this.extractAmount(...)]: [extractAmount] is declared [static], so the
    instance has no such property and the call throws a TypeError. *)
Definition this_extractAmount (amountArray currency : jsval) : M W jsval :=
  throw TypeError.

Definition getCurrencyBalance (fetcher : Fetcher W)
  (networkIdentifier accountIdentifier currency partialBlockIdentifier : jsval)
  : M W jsval :=
  emit (EvFetch networkIdentifier accountIdentifier partialBlockIdentifier) ;;;
  response <~ extern (AcountBalanceRetry fetcher networkIdentifier accountIdentifier
                        partialBlockIdentifier) ;;
  liveBlock <~ prop response "liveBlock" ;;
  liveBalances <~ prop response "liveBalances" ;;
  liveAmount <~ this_extractAmount liveBalances currency ;;
  value <~ prop liveAmount "value" ;;
  ret (VObj [("block", liveBlock); ("value", value)]).

Definition bestBalance (accountIdentifier currency partialBlockIdentifier : jsval)
  : M W jsval :=
  r <~ this ;;
  let partialBlockIdentifier :=
    if truthy (lookupBalanceByBlock r) then VNull else partialBlockIdentifier in
  getCurrencyBalance (fetcher r) (network r) accountIdentifier currency
    partialBlockIdentifier.

(** ** Inactive-queue bookkeeping *)

Definition ContainsAccountCurrency (accountCurrencyMap : gmap string jsval)
  (accountCurrency : jsval) : bool :=
  let element := map_get accountCurrencyMap (Hash accountCurrency) in
  negb (loose_eq_null element).

Definition inactiveAccountQueue (isInactive : bool) (accountCurrency blockIdentifier : jsval)
  : M W unit :=
  r <~ this ;;
  shouldEnqueueInactive <~
    (if negb isInactive && negb (ContainsAccountCurrency (seenAccounts r) accountCurrency)
     then
       modify (fun r => set_seenAccounts
                          (<[Hash accountCurrency := VObj []]> (seenAccounts r)) r) ;;;
       ret true
     else ret false) ;;
  if isInactive || shouldEnqueueInactive then
    modify (fun r => set_inactiveQueue
                       (inactiveQueue r ++
                          [VObj [("entry", accountCurrency);
                                 ("lastCheck", blockIdentifier)]])%list r)
  else ret tt.

(** ** accountReconciliation *)

(** How one pass through the body of [while (true)] ends. *)
Inductive pass : Type :=
| Continue
| Return (v : jsval).

(** What the [try]/[catch] leaves behind: the loop is re-entered, or control
    falls through with the three locals [difference], [cachedBalance] and
    [headIndex] as they then stand. *)
Inductive after_try : Type :=
| Again
| Fallthrough (locals : comparison).

(** The locals are declared without initialiser. *)
Definition unassigned : comparison :=
  {| difference := VUndef; cachedBalance := VUndef; headIndex := VUndef |}.

(** Reading the identifier [partialBlockIdentifier] inside
    [accountReconciliation], where nothing binds it. *)
Definition unbound_partialBlockIdentifier : M W jsval := throw ReferenceError.

Definition accountReconciliation_catch (blockIdentifier : jsval) (e : exn)
  : M W after_try :=
  match e with
  | ReconcilerError type =>
      if String.eqb type RECONCILIATION_ERROR_HEAD_BEHIND_LIVE then
        bi <~ prop blockIdentifier "index" ;;
        let diff := js_sub bi (headIndex unassigned) in
        r <~ this ;;
        if js_lt diff (waitToCheckDiff r) then
          sleep (waitToCheckDiffSleep r) ;;;
          ret Again
        else
          Logger_info ;;;
          partialBlockIdentifier <~ unbound_partialBlockIdentifier ;;
          index <~ prop partialBlockIdentifier "index" ;;
          modify (set_highWaterMark index) ;;;
          ret (Fallthrough unassigned)
      else if String.eqb type RECONCILIATION_ERROR_ACCOUNT_UPDATED then
        ret (Fallthrough unassigned)
      else if String.eqb type RECONCILIATION_ERROR_BLOCK_GONE then
        ret (Fallthrough unassigned)
      else ret (Fallthrough unassigned)
  | _ => throw e
  end.

Definition call_reconciliationFailed
  (type : string) (account currency cached amount block : jsval) : M W jsval :=
  r <~ this ;;
  emit (EvFailed type account currency cached amount block) ;;;
  extern (reconciliationFailed (handler r) type account currency cached amount block).

Definition call_reconciliationSucceeded
  (type : string) (account currency amount block : jsval) : M W jsval :=
  r <~ this ;;
  emit (EvSucceeded type account currency amount block) ;;;
  extern (reconciliationSucceeded (handler r) type account currency amount block).

(** Lines 246-273: what follows the [try]/[catch]. *)
Definition accountReconciliation_report
  (accountIdentifier currency amount blockIdentifier : jsval) (isInactive : bool)
  (locals : comparison) : M W pass :=
  let accountCurrency :=
    VObj [("account_identifier", accountIdentifier); ("currency", currency)] in
  let reconciliationType :=
    if isInactive then RECONCILIATION_INACTIVE else RECONCILIATION_ACTIVE in
  (if loose_neq_zero_string (difference locals) then
     error <~ call_reconciliationFailed reconciliationType accountIdentifier
                currency (cachedBalance locals) amount blockIdentifier ;;
     if truthy error then throw (Thrown error) else ret tt
   else ret tt) ;;;
  inactiveAccountQueue isInactive accountCurrency blockIdentifier ;;;
  v <~ call_reconciliationSucceeded reconciliationType accountIdentifier
         currency amount blockIdentifier ;;
  ret (Return v).

(** One pass through the body of [while (true)]. *)
Definition accountReconciliation_pass
  (accountIdentifier currency amount blockIdentifier : jsval) (isInactive : bool)
  : M W pass :=
  tried <~ try_catch
             (result <~ compareBalance accountIdentifier currency amount blockIdentifier ;;
              ret (Fallthrough result))
             (accountReconciliation_catch blockIdentifier) ;;
  match tried with
  | Again => ret Continue
  | Fallthrough locals =>
      accountReconciliation_report accountIdentifier currency amount blockIdentifier
        isInactive locals
  end.

(** [while (true) { ... }], cut off after [fuel] passes. *)
Fixpoint accountReconciliation (fuel : nat)
  (accountIdentifier currency amount blockIdentifier : jsval) (isInactive : bool)
  : M W jsval :=
  match fuel with
  | O => out_of_fuel
  | S fuel' =>
      p <~ accountReconciliation_pass accountIdentifier currency amount
             blockIdentifier isInactive ;;
      match p with
      | Continue =>
          accountReconciliation fuel' accountIdentifier currency amount
            blockIdentifier isInactive
      | Return v => ret v
      end
  end.

(** ** The two loops *)

(** One pass through the body of [reconcileActiveAccounts]. *)
Definition reconcileActiveAccounts_pass (fuel : nat) : M W unit :=
  r <~ this ;;
  let '(balanceChange, rest) := shift (changeQueue r) in
  modify (set_changeQueue rest) ;;;
  block <~ prop balanceChange "block" ;;
  index <~ prop block "index" ;;
  r <~ this ;;
  if js_lt index (highWaterMark r) then ret tt
  else
    account <~ prop balanceChange "account_identifier" ;;
    currency <~ prop balanceChange "currency" ;;
    block <~ prop balanceChange "block" ;;
    partial <~ lift (constructPartialBlockIdentifier block) ;;
    best <~ bestBalance account currency partial ;;
    liveBlock <~ prop best "block" ;;
    value <~ prop best "value" ;;
    account <~ prop balanceChange "account_identifier" ;;
    currency <~ prop balanceChange "currency" ;;
    accountReconciliation fuel account currency value liveBlock false ;;;
    ret tt.

Fixpoint reconcileActiveAccounts (fuel : nat) : M W unit :=
  match fuel with
  | O => out_of_fuel
  | S fuel' => reconcileActiveAccounts_pass fuel ;;; reconcileActiveAccounts fuel'
  end.

(** The test that guards the pop in [reconcileInactiveAccounts]. *)
Definition inactive_front_ready (head : jsval) : M W bool :=
  r <~ this ;;
  match inactiveQueue r with
  | [] => ret false
  | front :: _ =>
      last_check <~ prop front "last_check" ;;
      if loose_eq_null last_check then ret true
      else
        last_check <~ prop front "last_check" ;;
        index <~ prop last_check "index" ;;
        headIndex <~ prop head "index" ;;
        ret (js_lt (js_add index (requiredDepthInactive r)) headIndex)
  end.

(** One pass through the body of [reconcileInactiveAccounts]. *)
Definition reconcileInactiveAccounts_pass (fuel : nat) : M W unit :=
  r <~ this ;;
  call <~ invoke (currentBlock (helper r)) ;;
  match no_await call with
  | inl _ =>
      Logger_info ;;;
      sleep RECONCILIATION_INACTIVE_SLEEP_MS
  | inr head =>
      ready <~ inactive_front_ready head ;;
      if ready then
        r <~ this ;;
        let '(randomAccount, rest) := shift (inactiveQueue r) in
        modify (set_inactiveQueue rest) ;;;
        entry <~ prop randomAccount "entry" ;;
        account <~ prop entry "account_identifier" ;;
        currency <~ prop entry "currency" ;;
        partial <~ lift (constructPartialBlockIdentifier head) ;;
        best <~ bestBalance account currency partial ;;
        block <~ prop best "block" ;;
        amount <~ prop best "amount" ;;
        accountReconciliation fuel account currency amount block true ;;;
        ret tt
      else sleep RECONCILIATION_INACTIVE_SLEEP_MS
  end.

Fixpoint reconcileInactiveAccounts (fuel : nat) : M W unit :=
  match fuel with
  | O => out_of_fuel
  | S fuel' => reconcileInactiveAccounts_pass fuel ;;; reconcileInactiveAccounts fuel'
  end.

End Methods.

(** ** Observations on a finished run *)

Definition outcome_of {A R W' T : Type} (x : A * R * W' * T) : A := x.1.1.1.
Definition reconciler_of {A R W' T : Type} (x : A * R * W' * T) : R := x.1.1.2.
Definition trace_of {A R W' T : Type} (x : A * R * W' * T) : T := x.2.

(** A callback reports an error by throwing (a rejected promise) or by
    returning a truthy value, which the caller then throws. *)
Definition reports_error (reply : result jsval) : bool :=
  match reply with
  | inl _ => true
  | inr error => truthy error
  end.

Definition reconciliationType (isInactive : bool) : string :=
  if isInactive then RECONCILIATION_INACTIVE else RECONCILIATION_ACTIVE.

(** The object [accountReconciliation] builds for the bookkeeping. *)
Definition AccountCurrency (accountIdentifier currency : jsval) : jsval :=
  VObj [("account_identifier", accountIdentifier); ("currency", currency)].

(** The entry [inactiveAccountQueue] pushes. *)
Definition InactiveEntry (accountCurrency blockIdentifier : jsval) : jsval :=
  VObj [("entry", accountCurrency); ("lastCheck", blockIdentifier)].

(** A sequence of bookkeeping calls [(isInactive, accountCurrency, block)],
    as successive reconciliations make them. *)
Section Bookkeeping.

Context {L : Lang} {U : Utils} {W : Type}.

Definition bookkeeping (call : bool * jsval * jsval) (r : RosettaReconciler W) (w : W)
  : RosettaReconciler W :=
  let '(isInactive, accountCurrency, blockIdentifier) := call in
  reconciler_of (inactiveAccountQueue isInactive accountCurrency blockIdentifier r w).

(** Is [call] an active-path call on the account whose hash is [h]? *)
Definition active_on (h : string) (call : bool * jsval * jsval) : bool :=
  let '(isInactive, accountCurrency, _) := call in
  negb isInactive && String.eqb (Hash accountCurrency) h.

(** By how many entries the active-path calls on the account with hash [h]
    make the inactive queue grow, over the whole sequence. *)
Fixpoint active_appends (h : string) (calls : list (bool * jsval * jsval))
  (r : RosettaReconciler W) (w : W) : nat :=
  match calls with
  | [] => 0%nat
  | call :: rest =>
      let r' := bookkeeping call r w in
      ((if active_on h call
        then length (inactiveQueue r') - length (inactiveQueue r)
        else 0) + active_appends h rest r' w)%nat
  end.

End Bookkeeping.

(** ** Concrete collaborators, for the examples *)

(** Modelled from the spec: [SubtractValues] of lib/utils, which is not among
    the sources.  Section 3: an amount's value is an exact base-10 decimal
    string; section 4.2: [difference = cachedBalance - claimedAmount] in
    exact decimal arithmetic.  An operand that is not a decimal integer
    string makes the call throw. *)
Definition SubtractValues_spec (a b : jsval) : result jsval :=
  let decimal (v : jsval) : option Z :=
    match v with
    | VStr s => Z.of_int <$> NilZero.int_of_string s
    | _ => None
    end in
  match decimal a, decimal b with
  | Some x, Some y => inr (VStr (NilZero.string_of_int (Z.to_int (x - y))))
  | _, _ => inl (Thrown (VHost "SyntaxError"))
  end.

Definition spec_Utils (hash : jsval -> string)
  (partialBlock : jsval -> result jsval) : Utils :=
  {| Hash := hash;
     SubtractValues := SubtractValues_spec;
     constructPartialBlockIdentifier := partialBlock |}.

Module Examples.

Definition lang : Lang :=
  {| StringToNumber := fun s =>
       match NilZero.int_of_string s with
       | Some i => Num (Z.of_int i)
       | None => NaN
       end;
     StringLess := String.ltb;
     inherited := fun k =>
       bool_decide (k ∈ ["constructor"; "toString"; "valueOf"; "hasOwnProperty";
                         "isPrototypeOf"; "propertyIsEnumerable"; "toLocaleString";
                         "__proto__"]) |}.

(** A stand-in for the canonical hash: the account's address. *)
Definition address_hash (accountCurrency : jsval) : string :=
  match get_prop accountCurrency "account_identifier" with
  | inr account =>
      match get_prop account "address" with
      | inr (VStr a) => a
      | _ => "?"
      end
  | inl _ => "?"
  end.

Definition utils : Utils :=
  spec_Utils address_hash
    (fun block => match get_prop block "index" with
                  | inr i => inr (VObj [("index", i)])
                  | inl e => inl e
                  end).

Definition block_at (index : Z) : jsval :=
  VObj [("index", VNum index); ("hash", VStr "h")].

Definition account (address : string) : jsval := VObj [("address", VStr address)].

Definition DGB : jsval := VObj [("symbol", VStr "DGB"); ("decimals", VNum 8)].

Definition balance_reply (value : string) (updatedAt : Z) : jsval :=
  VObj [("cachedBalance", VObj [("value", VStr value); ("currency", DGB)]);
        ("balanceBlock", block_at updatedAt)].

(** An indexer whose head is at [head]; [blockExists] answers [exists_] and
    [accountBalance] answers [balance].  All three are async functions. *)
Definition helper_at (head : Z) (exists_ : bool) (balance : jsval) : Helper unit :=
  {| currentBlock := fun w => (Promise (inr (block_at head)), w);
     blockExists := fun _ w => (inr (VBool exists_), w);
     accountBalance := fun _ _ _ w => (inr balance, w) |}.

(** A handler that reports no error. *)
Definition quiet_handler : Handler unit :=
  {| reconciliationFailed := fun _ _ _ _ _ _ w => (inr VUndef, w);
     reconciliationSucceeded := fun _ _ _ _ _ w => (inr VUndef, w) |}.

Definition live_fetcher (block : Z) (value : string) : Fetcher unit :=
  {| AcountBalanceRetry := fun _ _ _ w =>
       (inr (VObj [("liveBlock", block_at block);
                   ("liveBalances", VHost "[object Object]")]), w) |}.

(** [new RosettaReconciler({ networkIdentifier, helper, handler, fetcher })]:
    no configuration key is overridden. *)
Definition plain_args {W} (net : jsval) (h : Helper W) (hd : Handler W) (f : Fetcher W)
  : Args W :=
  {| arg_networkIdentifier := net; arg_helper := h; arg_handler := hd;
     arg_fetcher := f; arg_highWaterMark := None; arg_lookupBalanceByBlock := None;
     arg_requiredDepthInactive := None; arg_waitToCheckDiff := None;
     arg_waitToCheckDiffSleep := None; arg_withSeenAccounts := None;
     arg_interestingAccounts := None |}.

Definition mainnet : jsval :=
  VObj [("blockchain", VStr "DigiByte"); ("network", VStr "mainnet")].

(** A reconciler constructed without configuration, next to an indexer at
    [head] and a quiet handler. *)
Definition reconciler_at {U : Utils} (head : Z) (exists_ : bool) (balance : jsval)
  : RosettaReconciler unit :=
  constructor
    (plain_args mainnet (helper_at head exists_ balance) quiet_handler
       (live_fetcher head "500")).

Definition alice : jsval := account "D6aLiCe".

(** [new RosettaReconciler({ ..., withSeenAccounts: [alice in DGB] })] *)
Definition seeded_args : Args unit :=
  {| arg_networkIdentifier := mainnet;
     arg_helper := helper_at 100 true (VObj []);
     arg_handler := quiet_handler;
     arg_fetcher := live_fetcher 100 "500";
     arg_highWaterMark := None; arg_lookupBalanceByBlock := None;
     arg_requiredDepthInactive := None; arg_waitToCheckDiff := None;
     arg_waitToCheckDiffSleep := None;
     arg_withSeenAccounts := Some [AccountCurrency alice DGB];
     arg_interestingAccounts := None |}.

(** Four bookkeeping calls on the same account: two active, one inactive,
    one active again. *)
Definition four_calls : list (bool * jsval * jsval) :=
  [(false, AccountCurrency alice DGB, block_at 10);
   (false, AccountCurrency alice DGB, block_at 11);
   (true, AccountCurrency alice DGB, block_at 600);
   (false, AccountCurrency alice DGB, block_at 601)].

End Examples.

(** * The rest of the class

    [queueChanges], the static [extractAmount] and the nested class
    [RosettaReconciler.AccountCurrency].  Arrays passed in by the caller are
    lists; [queueChanges] returns, next to its value, the caller's array as
    it leaves it. *)

Section Intake.

Context {L : Lang} {U : Utils} {W : Type}.

(** Reading the identifier [block] inside [queueChanges], where nothing
    binds it. *)
Definition unbound_block : M W jsval := throw ReferenceError.

(** The inner loop of [queueChanges]: is there a change whose hash is the
    account's? *)
Definition skipAccount (account : jsval) (balanceChangesArray : list jsval) : bool :=
  existsb (fun change => String.eqb (Hash account) (Hash change)) balanceChangesArray.

(** Lines 92-110: the loop over [this.interestingAccounts]. *)
Fixpoint queueChanges_interesting (accounts balanceChangesArray : list jsval)
  : M W (list jsval) :=
  match accounts with
  | [] => ret balanceChangesArray
  | account :: rest =>
      if skipAccount account balanceChangesArray then
        queueChanges_interesting rest balanceChangesArray
      else
        account_identifier <~ prop account "account" ;;
        currency <~ prop account "currency" ;;
        difference <~ unbound_block ;;
        queueChanges_interesting rest
          (balanceChangesArray ++
             [VObj [("account_identifier", account_identifier);
                    ("currency", currency);
                    ("block_identifier", VStr "0");
                    ("difference", difference)]])%list
  end.

(** Lines 118-121 and 124-126: every change is pushed on [this.changeQueue];
    the first of the two loops also logs after each push. *)
Fixpoint queueChanges_push (logs : bool) (balanceChangesArray : list jsval) : M W unit :=
  match balanceChangesArray with
  | [] => ret tt
  | change :: rest =>
      modify (fun r => set_changeQueue (changeQueue r ++ [change])%list r) ;;;
      (if logs then Logger_info else ret tt) ;;;
      queueChanges_push logs rest
  end.

Definition queueChanges (blockIdentifier : jsval) (balanceChangesArray : list jsval)
  : M W (jsval * list jsval) :=
  r <~ this ;;
  balanceChangesArray <~
    queueChanges_interesting (interestingAccounts r) balanceChangesArray ;;
  r <~ this ;;
  if negb (truthy (lookupBalanceByBlock r)) then
    index <~ prop blockIdentifier "index" ;;
    if js_lt index (highWaterMark r) then ret (VNull, balanceChangesArray)
    else
      queueChanges_push true balanceChangesArray ;;;
      ret (VUndef, balanceChangesArray)
  else
    queueChanges_push false balanceChangesArray ;;;
    ret (VUndef, balanceChangesArray).

(** [static extractAmount(amountArray, currency)].  The thrown [Error]
    carries a message that is not modelled. *)
Definition could_not_extract : exn := Thrown (VHost "Error").

Fixpoint extractAmount (amountArray : list jsval) (currency : jsval) : result jsval :=
  match amountArray with
  | [] => inl could_not_extract
  | b :: rest =>
      match get_prop b "currency" with
      | inl e => inl e
      | inr bc =>
          if negb (String.eqb (Hash bc) (Hash currency)) then extractAmount rest currency
          else inr b
      end
  end.

(** [typeof v == 'object'].  A host object may also be a function, whose
    type is ['function']; it has no [accountIdentifier] property, so both
    answers lead [new AccountCurrency] to the same branch. *)
Definition typeof_object (v : jsval) : bool :=
  match v with
  | VNull | VObj _ | VHost _ => true
  | _ => false
  end.

(** [new RosettaReconciler.AccountCurrency(...arguments)]; [opts] is the
    first argument. *)
Definition new_AccountCurrency (arguments : list jsval) : result jsval :=
  let opts := nth 0 arguments VUndef in
  let positional :=
    inr (VObj [("account", nth 0 arguments VUndef);
               ("currency", nth 1 arguments VUndef)]) in
  if typeof_object opts then
    match get_prop opts "accountIdentifier" with
    | inl e => inl e
    | inr accountIdentifier =>
        if truthy accountIdentifier then
          match get_prop opts "currency" with
          | inl e => inl e
          | inr currency =>
              inr (VObj [("account", accountIdentifier); ("currency", currency)])
          end
        else positional
    end
  else positional.

(** ** Vocabulary for the statements *)

(** An event of the change queue that the active loop skips:
    [balanceChange.block.index < this.highWaterMark]. *)
Definition stale (mark : jsval) (balanceChange : jsval) : bool :=
  match get_prop balanceChange "block" with
  | inr block =>
      match get_prop block "index" with
      | inr index => js_lt index mark
      | inl _ => false
      end
  | inl _ => false
  end.

(** The two shapes of entry the class itself puts on the inactive queue. *)
Definition pushed_entry (e : jsval) : Prop :=
  (exists s, e = VObj [("entry", s)]) \/
  (exists accountCurrency block, e = InactiveEntry accountCurrency block).

Definition is_callback (e : event) : bool :=
  match e with
  | EvFailed _ _ _ _ _ _ | EvSucceeded _ _ _ _ _ => true
  | _ => false
  end.


End Intake.

Module Batches.

Import Examples.

(** A balance change as the active loop reads it. *)
Definition change_at (address : string) (index : Z) : jsval :=
  VObj [("account_identifier", account address); ("currency", DGB);
        ("block", block_at index)].

(** A watch-list entry, built by the nested class. *)
Definition watched (address : string) : jsval :=
  VObj [("account", account address); ("currency", DGB)].

(** A hash that identifies a currency by its symbol, and a change or a
    watch-list entry by the address of its account. *)
Definition account_hash (v : jsval) : string :=
  let address_of (a : jsval) : option string :=
    match get_prop a "address" with
    | inr (VStr s) => Some s
    | _ => None
    end in
  match get_prop v "symbol", get_prop v "account_identifier", get_prop v "account" with
  | inr (VStr symbol), _, _ => symbol
  | _, inr a, inr b =>
      match address_of a, address_of b with
      | Some s, _ => s
      | None, Some s => s
      | None, None => "?"
      end
  | _, _, _ => "?"
  end.

Definition BTC : jsval := VObj [("symbol", VStr "BTC"); ("decimals", VNum 8)].

Definition amount_of (value : string) (currency : jsval) : jsval :=
  VObj [("value", VStr value); ("currency", currency)].

Definition utils : Utils :=
  spec_Utils account_hash
    (fun block => match get_prop block "index" with
                  | inr i => inr (VObj [("index", i)])
                  | inl e => inl e
                  end).

(** [new RosettaReconciler({ ..., lookupBalanceByBlock, interestingAccounts })] *)
Definition configured_args (lookup : option jsval) (interesting : option (list jsval))
  : Args unit :=
  {| arg_networkIdentifier := mainnet;
     arg_helper := helper_at 100 true (balance_reply "500" 90);
     arg_handler := quiet_handler;
     arg_fetcher := live_fetcher 100 "500";
     arg_highWaterMark := None; arg_lookupBalanceByBlock := lookup;
     arg_requiredDepthInactive := None; arg_waitToCheckDiff := None;
     arg_waitToCheckDiffSleep := None; arg_withSeenAccounts := None;
     arg_interestingAccounts := interesting |}.

End Batches.

(** * Sequences of reconciliations *)

Section Sequences.

Context {L : Lang} {U : Utils} {W : Type}.

(** The five arguments of one call of [accountReconciliation]. *)
Record reconciliation : Type := {
  claimed_account : jsval;
  claimed_currency : jsval;
  claimed_amount : jsval;
  claimed_block : jsval;
  inactive_run : bool;
}.

Definition reconcile_call (fuel : nat) (call : reconciliation) : M W jsval :=
  accountReconciliation fuel (claimed_account call) (claimed_currency call)
    (claimed_amount call) (claimed_block call) (inactive_run call).

Definition world_of {A R W' T : Type} (x : A * R * W' * T) : W' := x.1.2.

Definition is_success (e : event) : bool :=
  match e with
  | EvSucceeded _ _ _ _ _ => true
  | _ => false
  end.

(** A run has got past the bookkeeping call of line 265 exactly when it has
    invoked the success callback, the statement that follows it. *)
Definition reaches_bookkeeping {A R W' : Type} (run : A * R * W' * list event) : bool :=
  existsb is_success (trace_of run).

(** Is [call] an active-path reconciliation of the account whose hash is
    [h]? *)
Definition active_reconciliation_of (h : string) (call : reconciliation) : bool :=
  negb (inactive_run call) &&
  String.eqb (Hash (AccountCurrency (claimed_account call) (claimed_currency call))) h.

(** Over a sequence of reconciliations, each starting from the reconciler and
    the world the previous one left: by how many entries the active-path
    reconciliations of the account with hash [h] make the inactive queue
    grow. *)
Fixpoint active_seedings (fuel : nat) (h : string) (calls : list reconciliation)
  (r : RosettaReconciler W) (w : W) : nat :=
  match calls with
  | [] => 0%nat
  | call :: rest =>
      let run := reconcile_call fuel call r w in
      ((if active_reconciliation_of h call
        then length (inactiveQueue (reconciler_of run)) - length (inactiveQueue r)
        else 0)
       + active_seedings fuel h rest (reconciler_of run) (world_of run))%nat
  end.

(** Does some active-path reconciliation of that account, in the sequence,
    get past the bookkeeping call? *)
Fixpoint active_completion (fuel : nat) (h : string) (calls : list reconciliation)
  (r : RosettaReconciler W) (w : W) : bool :=
  match calls with
  | [] => false
  | call :: rest =>
      let run := reconcile_call fuel call r w in
      (active_reconciliation_of h call && reaches_bookkeeping run)
      || active_completion fuel h rest (reconciler_of run) (world_of run)
  end.

End Sequences.

Module Attempts.

Import Examples.

(** A handler whose failure callback returns an error object. *)
Definition strict_handler : Handler unit :=
  {| reconciliationFailed := fun _ _ _ _ _ _ w => (inr (VHost "Error"), w);
     reconciliationSucceeded := fun _ _ _ _ _ w => (inr VUndef, w) |}.

(** A reconciler without configuration next to an indexer at 100 whose
    cached balance of "500" dates from block 90, and the strict handler. *)
Definition strict_reconciler {U : Utils} : RosettaReconciler unit :=
  constructor
    (plain_args mainnet (helper_at 100 true (balance_reply "500" 90)) strict_handler
       (live_fetcher 100 "500")).

Definition claim (amount : string) (index : Z) (isInactive : bool) : reconciliation :=
  {| claimed_account := alice; claimed_currency := DGB; claimed_amount := VStr amount;
     claimed_block := block_at index; inactive_run := isInactive |}.

(** Alice is reconciled actively ahead of the head (the attempt faults),
    then actively twice at the head, then inactively, then actively again. *)
Definition five_reconciliations : list reconciliation :=
  [claim "500" 105 false; claim "500" 100 false; claim "500" 100 false;
   claim "500" 100 true; claim "500" 100 false].

End Attempts.

(** * Properties *)

Section Properties.

Context {L : Lang} {U : Utils} {W : Type}.

Implicit Types (r : RosettaReconciler W) (w : W).

(** ** Coercions *)

Lemma js_sub_undefined (a : jsval) : js_sub a VUndef = VNaN.
Proof. unfold js_sub. destruct (to_number a); reflexivity. Qed.

Lemma js_lt_NaN (b : jsval) : js_lt VNaN b = false.
Proof. unfold js_lt. simpl. destruct (to_primitive b); reflexivity. Qed.

(** ** compareBalance reads; it writes nothing and calls no callback *)

Lemma compareBalance_frame a c amount block r w :
  reconciler_of (compareBalance a c amount block r w) = r /\
  trace_of (compareBalance a c amount block r w) = [].
Proof.
  unfold compareBalance, bind, this, invoke, extern, prop, lift, throw, ret.
  repeat (simpl; case_match; simplify_eq; try done).
Qed.

Lemma compareBalance_inv {a c amount block r w o r1 w1 t1} :
  compareBalance a c amount block r w = (o, r1, w1, t1) -> r1 = r /\ t1 = [].
Proof.
  intros Hrun. pose proof (compareBalance_frame a c amount block r w) as [Hr Ht].
  rewrite Hrun in Hr, Ht. auto.
Qed.

(** ** Bookkeeping *)

Lemma inactiveAccountQueue_run isInactive ac block r w :
  inactiveAccountQueue isInactive ac block r w =
    (Ok tt,
     if isInactive then
       set_inactiveQueue (inactiveQueue r ++ [InactiveEntry ac block])%list r
     else if ContainsAccountCurrency (seenAccounts r) ac then r
     else
       set_inactiveQueue (inactiveQueue r ++ [InactiveEntry ac block])%list
         (set_seenAccounts (<[Hash ac := VObj []]> (seenAccounts r)) r),
     w, []).
Proof.
  unfold inactiveAccountQueue, bind, this, modify, ret.
  destruct isInactive; simpl; [reflexivity |].
  destruct (ContainsAccountCurrency (seenAccounts r) ac); reflexivity.
Qed.

(** ** The catch clause never re-enters the loop *)

Lemma accountReconciliation_catch_run block e r w :
  accountReconciliation_catch block e r w =
    match e with
    | ReconcilerError type =>
        if String.eqb type RECONCILIATION_ERROR_HEAD_BEHIND_LIVE then
          match get_prop block "index" with
          | inl e' => (Throw e', r, w, [])
          | inr _ => (Throw ReferenceError, r, w, [EvLog])
          end
        else (Ok (Fallthrough unassigned), r, w, [])
    | _ => (Throw e, r, w, [])
    end.
Proof.
  destruct e as [type | | | v]; try reflexivity.
  unfold accountReconciliation_catch.
  destruct (String.eqb type RECONCILIATION_ERROR_HEAD_BEHIND_LIVE).
  - unfold bind, prop, lift. destruct (get_prop block "index") as [e' | bi]; [reflexivity |].
    simpl. rewrite js_sub_undefined, js_lt_NaN. reflexivity.
  - repeat case_match; reflexivity.
Qed.

(** ** What follows the try/catch *)

Lemma accountReconciliation_report_run a c amount block isInactive locals r w :
  accountReconciliation_report a c amount block isInactive locals r w =
    let type := reconciliationType isInactive in
    let failed := EvFailed type a c (cachedBalance locals) amount block in
    let succeeded := EvSucceeded type a c amount block in
    let finish := fun w' t =>
      let reply := reconciliationSucceeded (handler r) type a c amount block w' in
      (match reply.1 with inl e => Throw e | inr v => Ok (Return v) end,
       reconciler_of (inactiveAccountQueue isInactive (AccountCurrency a c) block r w),
       reply.2, (t ++ [succeeded])%list) in
    if loose_neq_zero_string (difference locals) then
      let reply :=
        reconciliationFailed (handler r) type a c (cachedBalance locals) amount block w in
      match reply.1 with
      | inl e => (Throw e, r, reply.2, [failed])
      | inr error =>
          if truthy error then (Throw (Thrown error), r, reply.2, [failed])
          else finish reply.2 [failed]
      end
    else finish w [].
Proof.
  unfold accountReconciliation_report, call_reconciliationFailed,
    call_reconciliationSucceeded, reconciliationType, AccountCurrency.
  cbv zeta.
  set (type := if isInactive then RECONCILIATION_INACTIVE else RECONCILIATION_ACTIVE).
  set (ac := VObj [("account_identifier", a); ("currency", c)]).
  rewrite (inactiveAccountQueue_run isInactive ac block r w).
  unfold bind at 1. unfold bind at 1.
  destruct (loose_neq_zero_string (difference locals)).
  - unfold bind at 1. unfold this at 1. unfold bind at 1. unfold emit at 1.
    unfold extern at 1.
    destruct (reconciliationFailed (handler r) type a c (cachedBalance locals)
                amount block w) as [[e | error] w1]; simpl; [reflexivity |].
    destruct (truthy error); simpl; [reflexivity |].
    unfold bind. rewrite inactiveAccountQueue_run. unfold this, emit, extern, ret.
    simpl.
    destruct isInactive; simpl.
    + destruct (reconciliationSucceeded (handler r) type a c amount block w1)
        as [[e | v] w2]; reflexivity.
    + destruct (ContainsAccountCurrency (seenAccounts r) ac); simpl;
        destruct (reconciliationSucceeded (handler r) type a c amount block w1)
          as [[e | v] w2]; reflexivity.
  - unfold ret at 1. unfold bind. rewrite inactiveAccountQueue_run.
    unfold this, emit, extern, ret. simpl.
    destruct isInactive; simpl.
    + destruct (reconciliationSucceeded (handler r) type a c amount block w)
        as [[e | v] w2]; reflexivity.
    + destruct (ContainsAccountCurrency (seenAccounts r) ac); simpl;
        destruct (reconciliationSucceeded (handler r) type a c amount block w)
          as [[e | v] w2]; reflexivity.
Qed.

(** ** One pass, case by case *)

Lemma accountReconciliation_pass_compared a c amount block isInactive r w cmp w1 :
  compareBalance a c amount block r w = (Ok cmp, r, w1, []) ->
  accountReconciliation_pass a c amount block isInactive r w =
    accountReconciliation_report a c amount block isInactive cmp r w1.
Proof.
  intros Hcmp. unfold accountReconciliation_pass, try_catch.
  unfold bind at 1. unfold bind at 1. rewrite Hcmp. simpl.
  destruct (accountReconciliation_report a c amount block isInactive cmp r w1)
    as [[[o r2] w2] t2].
  reflexivity.
Qed.

Lemma accountReconciliation_pass_thrown a c amount block isInactive r w e w1 :
  compareBalance a c amount block r w = (Throw e, r, w1, []) ->
  accountReconciliation_pass a c amount block isInactive r w =
    match accountReconciliation_catch block e r w1 with
    | (Ok (Fallthrough locals), r2, w2, t2) =>
        accountReconciliation_report a c amount block isInactive locals r2 w2
    | (Ok Again, r2, w2, t2) => (Ok Continue, r2, w2, t2)
    | (Throw e', r2, w2, t2) => (Throw e', r2, w2, t2)
    | (OutOfFuel, r2, w2, t2) => (OutOfFuel, r2, w2, t2)
    end.
Proof.
  intros Hcmp. unfold accountReconciliation_pass, try_catch.
  unfold bind at 1. unfold bind at 1. rewrite Hcmp. simpl.
  rewrite accountReconciliation_catch_run.
  destruct e as [type | | | v]; try reflexivity.
  destruct (String.eqb type RECONCILIATION_ERROR_HEAD_BEHIND_LIVE).
  - destruct (get_prop block "index"); reflexivity.
  - simpl.
    destruct (accountReconciliation_report a c amount block isInactive unassigned r w1)
      as [[[o r2] w2] t2].
    reflexivity.
Qed.

(** The comparator's three ways of ending, as the pass sees them. *)
Lemma compareBalance_cases a c amount block r w :
  exists o w1, compareBalance a c amount block r w = (o, r, w1, []) /\ o <> OutOfFuel.
Proof.
  pose proof (compareBalance_frame a c amount block r w) as [Hr Ht].
  destruct (compareBalance a c amount block r w) as [[[o r1] w1] t1] eqn:Hrun.
  simpl in Hr, Ht. subst. exists o, w1. split; [reflexivity |].
  intros ->. revert Hrun.
  unfold compareBalance, bind, this, invoke, extern, prop, lift, throw, ret.
  repeat (simpl; case_match; simplify_eq; try done).
Qed.

(** A pass never asks for another one, and so the loop ends within its
    first pass whatever the fuel. *)
Lemma accountReconciliation_pass_ends a c amount block isInactive r w :
  outcome_of (accountReconciliation_pass a c amount block isInactive r w) <> Ok Continue /\
  outcome_of (accountReconciliation_pass a c amount block isInactive r w) <> OutOfFuel.
Proof.
  destruct (compareBalance_cases a c amount block r w) as (o & w1 & Hcmp & Hfuel).
  destruct o as [cmp | e |]; [| | done].
  - rewrite (accountReconciliation_pass_compared _ _ _ _ _ _ _ _ _ Hcmp).
    rewrite accountReconciliation_report_run. cbv zeta.
    repeat (case_match; simpl); done.
  - rewrite (accountReconciliation_pass_thrown _ _ _ _ _ _ _ _ _ Hcmp).
    rewrite accountReconciliation_catch_run.
    destruct e as [type | | | v]; simpl; try done.
    destruct (String.eqb type RECONCILIATION_ERROR_HEAD_BEHIND_LIVE).
    + destruct (get_prop block "index"); simpl; done.
    + rewrite accountReconciliation_report_run. cbv zeta.
      repeat (case_match; simpl); done.
Qed.

Lemma accountReconciliation_unfold fuel a c amount block isInactive r w :
  accountReconciliation (S fuel) a c amount block isInactive r w =
    match accountReconciliation_pass a c amount block isInactive r w with
    | (Ok (Return v), r1, w1, t1) => (Ok v, r1, w1, t1)
    | (Ok Continue, r1, w1, t1) =>
        match accountReconciliation fuel a c amount block isInactive r1 w1 with
        | (o, r2, w2, t2) => (o, r2, w2, (t1 ++ t2)%list)
        end
    | (Throw e, r1, w1, t1) => (Throw e, r1, w1, t1)
    | (OutOfFuel, r1, w1, t1) => (OutOfFuel, r1, w1, t1)
    end.
Proof.
  simpl. unfold bind.
  destruct (accountReconciliation_pass a c amount block isInactive r w)
    as [[[[[| v] | e |] r1] w1] t1]; try reflexivity.
  unfold ret. rewrite app_nil_r. reflexivity.
Qed.

(** X5.  The loop of [accountReconciliation] terminates within its first
    pass: with any fuel at all it returns or throws, and more fuel changes
    nothing.  The [continue] of the HeadBehindLive branch is never taken. *)
Lemma accountReconciliation_total fuel a c amount block isInactive r w :
  accountReconciliation (S fuel) a c amount block isInactive r w =
    accountReconciliation 1 a c amount block isInactive r w /\
  outcome_of (accountReconciliation (S fuel) a c amount block isInactive r w) <> OutOfFuel.
Proof.
  rewrite !accountReconciliation_unfold.
  pose proof (accountReconciliation_pass_ends a c amount block isInactive r w) as [Hc Hf].
  destruct (accountReconciliation_pass a c amount block isInactive r w)
    as [[[[[| v] | e |] r1] w1] t1]; simpl in *; done.
Qed.

(** ** C1: the block handed to the fetcher *)

(** C1 (the code does the opposite of the claim).  [bestBalance] makes exactly
    one call on the fetcher; the partial block identifier it passes is [null]
    when [lookupBalanceByBlock] is truthy and the caller's identifier when it
    is falsy, whatever the fetcher answers. *)
Theorem bestBalance_fetches_with a c partial r w :
  trace_of (bestBalance a c partial r w) =
    [EvFetch (network r) a (if truthy (lookupBalanceByBlock r) then VNull else partial)].
Proof.
  unfold bestBalance, getCurrencyBalance, this_extractAmount.
  unfold bind, this, emit, extern, prop, lift, throw, ret. simpl.
  destruct (AcountBalanceRetry (fetcher r) (network r) a
              (if truthy (lookupBalanceByBlock r) then VNull else partial) w)
    as [[e | response] w1]; simpl; [reflexivity |].
  destruct (get_prop response "liveBlock"); simpl; [reflexivity |].
  destruct (get_prop response "liveBalances"); reflexivity.
Qed.

(** [bestBalance] never returns: once the fetcher has answered, the call of
    the static [extractAmount] through [this] throws. *)
Lemma bestBalance_throws a c partial r w :
  exists e, outcome_of (bestBalance a c partial r w) = Throw e /\
            reconciler_of (bestBalance a c partial r w) = r.
Proof.
  unfold bestBalance, getCurrencyBalance, this_extractAmount.
  unfold bind, this, emit, extern, prop, lift, throw, ret. simpl.
  destruct (AcountBalanceRetry (fetcher r) (network r) a
              (if truthy (lookupBalanceByBlock r) then VNull else partial) w)
    as [[e | response] w1]; simpl; [eauto |].
  destruct (get_prop response "liveBlock"); simpl; [eauto |].
  destruct (get_prop response "liveBalances"); simpl; eauto.
Qed.

(** ** C2: the comparator fails with HeadBehindLive *)

(** Whatever the lag and the threshold: no sleep, no retry, no write to
    [highWaterMark]; the attempt ends in the ReferenceError raised by the
    unbound [partialBlockIdentifier]. *)
Lemma head_behind_live_faults fuel a c amount block isInactive r w r1 w1 t1 bi :
  compareBalance a c amount block r w =
    (Throw (ReconcilerError RECONCILIATION_ERROR_HEAD_BEHIND_LIVE), r1, w1, t1) ->
  get_prop block "index" = inr bi ->
  accountReconciliation (S fuel) a c amount block isInactive r w =
    (Throw ReferenceError, r, w1, [EvLog]).
Proof.
  intros Hcmp Hbi. destruct (compareBalance_inv Hcmp) as [-> ->].
  rewrite accountReconciliation_unfold.
  rewrite (accountReconciliation_pass_thrown _ _ _ _ _ _ _ _ _ Hcmp).
  rewrite accountReconciliation_catch_run. simpl. rewrite Hbi. reflexivity.
Qed.

(** ** C3: a completed comparison with a nonzero difference *)

(** C3 (amended).  After a completed comparison whose difference is not
    ["0"], the failure callback is invoked exactly once, first, with the
    reconciliation type, account, currency, cached balance, claimed amount
    and block.  If it reports an error the attempt throws and the success
    callback is not invoked; otherwise the bookkeeping runs and the success
    callback is invoked once as well, its result being returned. *)
Theorem mismatch_reports_failure fuel a c amount block isInactive r w cmp r1 w1 t1 :
  compareBalance a c amount block r w = (Ok cmp, r1, w1, t1) ->
  loose_neq_zero_string (difference cmp) = true ->
  let type := reconciliationType isInactive in
  let run := accountReconciliation (S fuel) a c amount block isInactive r w in
  let failed := EvFailed type a c (cachedBalance cmp) amount block in
  let succeeded := EvSucceeded type a c amount block in
  let reply :=
    reconciliationFailed (handler r) type a c (cachedBalance cmp) amount block w1 in
  if reports_error reply.1 then
    trace_of run = [failed] /\ exists e, outcome_of run = Throw e
  else
    trace_of run = [failed; succeeded] /\
    reconciler_of run =
      reconciler_of (inactiveAccountQueue isInactive (AccountCurrency a c) block r w) /\
    outcome_of run =
      match (reconciliationSucceeded (handler r) type a c amount block reply.2).1 with
      | inl e => Throw e
      | inr v => Ok v
      end.
Proof.
  intros Hcmp Hdiff. destruct (compareBalance_inv Hcmp) as [-> ->]. cbv zeta.
  pose proof (accountReconciliation_pass_compared a c amount block isInactive
                r w cmp w1 Hcmp) as Hpass.
  rewrite accountReconciliation_unfold, Hpass, accountReconciliation_report_run.
  cbv zeta. rewrite Hdiff. rewrite !inactiveAccountQueue_run.
  destruct (reconciliationFailed (handler r) (reconciliationType isInactive) a c
              (cachedBalance cmp) amount block w1) as [[e | error] w2]; simpl.
  - eauto.
  - destruct (truthy error); simpl; [eauto |].
    destruct (reconciliationSucceeded (handler r) (reconciliationType isInactive)
                a c amount block w2) as [[e | v] w3]; simpl; auto.
Qed.

(** ** C10: the comparator fails with AccountUpdated or BlockGone *)

(** C10.  When the comparator fails with AccountUpdated or BlockGone, the
    locals are still [undefined]; [undefined != "0"] holds, so the failure
    callback is invoked with an [undefined] cached balance.  If it reports an
    error the attempt throws; otherwise the bookkeeping runs and the success
    callback is invoked too. *)
Theorem skipped_attempt_reports_failure_then_success
  fuel a c amount block isInactive r w type r1 w1 t1 :
  compareBalance a c amount block r w = (Throw (ReconcilerError type), r1, w1, t1) ->
  type = RECONCILIATION_ERROR_ACCOUNT_UPDATED \/ type = RECONCILIATION_ERROR_BLOCK_GONE ->
  let kind := reconciliationType isInactive in
  let run := accountReconciliation (S fuel) a c amount block isInactive r w in
  let failed := EvFailed kind a c VUndef amount block in
  let succeeded := EvSucceeded kind a c amount block in
  let reply := reconciliationFailed (handler r) kind a c VUndef amount block w1 in
  loose_neq_zero_string VUndef = true /\
  if reports_error reply.1 then
    trace_of run = [failed] /\ exists e, outcome_of run = Throw e
  else
    trace_of run = [failed; succeeded] /\
    reconciler_of run =
      reconciler_of (inactiveAccountQueue isInactive (AccountCurrency a c) block r w) /\
    outcome_of run =
      match (reconciliationSucceeded (handler r) kind a c amount block reply.2).1 with
      | inl e => Throw e
      | inr v => Ok v
      end.
Proof.
  intros Hcmp Htype. destruct (compareBalance_inv Hcmp) as [-> ->]. cbv zeta.
  split; [reflexivity |].
  pose proof (accountReconciliation_pass_thrown a c amount block isInactive
                r w _ w1 Hcmp) as Hpass.
  rewrite accountReconciliation_catch_run in Hpass.
  assert (String.eqb type RECONCILIATION_ERROR_HEAD_BEHIND_LIVE = false) as Hne
    by (destruct Htype; subst; reflexivity).
  rewrite Hne in Hpass.
  rewrite accountReconciliation_unfold, Hpass, accountReconciliation_report_run.
  cbv zeta. simpl difference. simpl cachedBalance.
  change (loose_neq_zero_string VUndef) with true. cbv iota.
  rewrite !inactiveAccountQueue_run.
  destruct (reconciliationFailed (handler r) (reconciliationType isInactive) a c
              VUndef amount block w1) as [[e | error] w2]; simpl.
  - eauto.
  - destruct (truthy error); simpl; [eauto |].
    destruct (reconciliationSucceeded (handler r) (reconciliationType isInactive)
                a c amount block w2) as [[e | v] w3]; simpl; auto.
Qed.

(** ** C7: the block-existence check *)

(** C7 (amended).  Once the head has been fetched and the claimed block's
    index is not above the head's, a falsy answer of [blockExists] makes
    [compareBalance] fail with BlockGone; the balances are not even read, so
    the outcome is the same for every account, currency and claimed amount. *)
Theorem block_gone_when_existence_check_reached
  a c amount block r w call w1 head bi hi exists_ w2 :
  currentBlock (helper r) w = (call, w1) ->
  await call = inr head ->
  get_prop block "index" = inr bi ->
  get_prop head "index" = inr hi ->
  js_gt bi hi = false ->
  blockExists (helper r) block w1 = (inr exists_, w2) ->
  truthy exists_ = false ->
  compareBalance a c amount block r w =
    (Throw (ReconcilerError RECONCILIATION_ERROR_BLOCK_GONE), r, w2, []).
Proof.
  intros Hcall Hawait Hbi Hhi Hgt Hexists Hfalsy.
  unfold compareBalance, bind, this, invoke, extern, prop, lift, throw, ret.
  rewrite Hcall, Hawait. simpl. rewrite Hbi, Hhi. simpl. rewrite Hgt, Hexists.
  simpl. rewrite Hfalsy. reflexivity.
Qed.

(** X1.  The head check comes first: a claimed block whose index is above
    the head's fails with HeadBehindLive, whatever the balances, before
    [blockExists] or [accountBalance] is consulted. *)
Lemma head_behind_live_before_existence a c amount block r w call w1 head bi hi :
  currentBlock (helper r) w = (call, w1) ->
  await call = inr head ->
  get_prop block "index" = inr bi ->
  get_prop head "index" = inr hi ->
  js_gt bi hi = true ->
  compareBalance a c amount block r w =
    (Throw (ReconcilerError RECONCILIATION_ERROR_HEAD_BEHIND_LIVE), r, w1, []).
Proof.
  intros Hcall Hawait Hbi Hhi Hgt.
  unfold compareBalance, bind, this, invoke, extern, prop, lift, throw, ret.
  rewrite Hcall, Hawait. simpl. rewrite Hbi, Hhi. simpl. rewrite Hgt. reflexivity.
Qed.

(** ** C4: highWaterMark after construction *)

Lemma constructor_highWaterMark (args : Args W) :
  highWaterMark (constructor args) = lookupBalanceByBlock (constructor args) /\
  highWaterMark (constructor args) =
    default (VBool true) (arg_lookupBalanceByBlock args).
Proof.
  unfold constructor.
  destruct (handleSeenAccounts [] (cfg_withSeenAccounts (assign defaults args))).
  split; reflexivity.
Qed.

Lemma constructor_changeQueue (args : Args W) : changeQueue (constructor args) = [].
Proof.
  unfold constructor.
  destruct (handleSeenAccounts [] (cfg_withSeenAccounts (assign defaults args))).
  reflexivity.
Qed.

(** No reconciliation writes [highWaterMark]: the only assignment sits
    behind the unbound identifier. *)
Lemma accountReconciliation_keeps_highWaterMark fuel a c amount block isInactive r w :
  highWaterMark (reconciler_of (accountReconciliation fuel a c amount block isInactive r w))
  = highWaterMark r.
Proof.
  destruct fuel as [| fuel]; [reflexivity |].
  rewrite accountReconciliation_unfold.
  pose proof (accountReconciliation_pass_ends a c amount block isInactive r w) as [Hc _].
  destruct (compareBalance_cases a c amount block r w) as (o & w1 & Hcmp & Hfuel).
  assert (Hreport : forall locals w',
    highWaterMark (reconciler_of
      (accountReconciliation_report a c amount block isInactive locals r w'))
    = highWaterMark r).
  { intros locals w'. rewrite accountReconciliation_report_run. cbv zeta.
    rewrite !inactiveAccountQueue_run.
    repeat (case_match; simpl); reflexivity. }
  destruct o as [cmp | e |]; [| | done].
  - rewrite (accountReconciliation_pass_compared _ _ _ _ _ _ _ _ _ Hcmp) in *.
    specialize (Hreport cmp w1).
    destruct (accountReconciliation_report a c amount block isInactive cmp r w1)
      as [[[[[| v] | e |] r1] w2] t1]; simpl in *; done.
  - rewrite (accountReconciliation_pass_thrown _ _ _ _ _ _ _ _ _ Hcmp) in *.
    rewrite accountReconciliation_catch_run in *.
    destruct e as [type | | | v]; simpl; try reflexivity.
    destruct (String.eqb type RECONCILIATION_ERROR_HEAD_BEHIND_LIVE).
    + destruct (get_prop block "index"); reflexivity.
    + specialize (Hreport unassigned w1).
      destruct (accountReconciliation_report a c amount block isInactive unassigned r w1)
        as [[[[[| v] | e |] r1] w2] t1]; simpl in *; done.
Qed.

(** ** C9: the active loop on an empty queue *)

Lemma shift_empty_pass fuel r w :
  changeQueue r = [] ->
  reconcileActiveAccounts_pass fuel r w = (Throw TypeError, set_changeQueue [] r, w, []).
Proof.
  intros Hq. unfold reconcileActiveAccounts_pass, bind, this. rewrite Hq. reflexivity.
Qed.

(** A freshly constructed reconciler is in that state. *)
Lemma fresh_active_loop_faults fuel (args : Args W) w :
  outcome_of (reconcileActiveAccounts (S fuel) (constructor args) w) = Throw TypeError.
Proof.
  simpl. unfold bind at 1.
  rewrite (shift_empty_pass (S fuel) _ w (constructor_changeQueue args)). reflexivity.
Qed.

(** C9 (the code faults).  With an empty change queue the first pass of the
    active loop shifts [undefined] off the queue and throws a TypeError on
    reading its [block]; nothing waits for the queue to fill. *)
Theorem reconcileActiveAccounts_faults_on_empty_queue fuel r w :
  changeQueue r = [] ->
  reconcileActiveAccounts (S fuel) r w = (Throw TypeError, set_changeQueue [] r, w, []) /\
  trace_of (reconcileActiveAccounts (S fuel) r w) = [].
Proof.
  intros Hq. assert (reconcileActiveAccounts (S fuel) r w
                     = (Throw TypeError, set_changeQueue [] r, w, [])) as ->.
  { simpl. unfold bind at 1. rewrite (shift_empty_pass (S fuel) r w Hq). reflexivity. }
  split; reflexivity.
Qed.

(** ** C6: seeding of the inactive queue *)

Lemma ContainsAccountCurrency_insert seen ac ac' :
  ContainsAccountCurrency (<[Hash ac := VObj []]> seen) ac' =
    String.eqb (Hash ac) (Hash ac') || ContainsAccountCurrency seen ac'.
Proof.
  unfold ContainsAccountCurrency, map_get.
  destruct (String.eqb_spec (Hash ac) (Hash ac')) as [Heq | Hne].
  - rewrite Heq, lookup_insert_eq. reflexivity.
  - rewrite lookup_insert_ne by done. reflexivity.
Qed.

Lemma ContainsAccountCurrency_same_hash seen ac ac' :
  Hash ac = Hash ac' ->
  ContainsAccountCurrency seen ac = ContainsAccountCurrency seen ac'.
Proof. intros Heq. unfold ContainsAccountCurrency. rewrite Heq. reflexivity. Qed.

Lemma bookkeeping_inactive ac block r w :
  bookkeeping (true, ac, block) r w =
    set_inactiveQueue (inactiveQueue r ++ [InactiveEntry ac block])%list r.
Proof. unfold bookkeeping. rewrite inactiveAccountQueue_run. reflexivity. Qed.

Lemma bookkeeping_active ac block r w :
  bookkeeping (false, ac, block) r w =
    if ContainsAccountCurrency (seenAccounts r) ac then r
    else set_inactiveQueue (inactiveQueue r ++ [InactiveEntry ac block])%list
           (set_seenAccounts (<[Hash ac := VObj []]> (seenAccounts r)) r).
Proof. unfold bookkeeping. rewrite inactiveAccountQueue_run. reflexivity. Qed.

Lemma active_appends_seen ac calls r w :
  ContainsAccountCurrency (seenAccounts r) ac = true ->
  active_appends (Hash ac) calls r w = 0%nat.
Proof.
  revert r. induction calls as [| [[isInactive ac'] block] rest IH]; intros r Hseen.
  - reflexivity.
  - cbn [active_appends]. destruct isInactive.
    + rewrite bookkeeping_inactive. cbn [active_on negb andb]. simpl.
      apply IH. exact Hseen.
    + rewrite bookkeeping_active. cbn [active_on negb andb].
      destruct (String.eqb_spec (Hash ac') (Hash ac)) as [Heq | Hne].
      * rewrite (ContainsAccountCurrency_same_hash _ ac' ac Heq), Hseen.
        rewrite Nat.sub_diag. simpl. apply IH. exact Hseen.
      * simpl. apply IH.
        destruct (ContainsAccountCurrency (seenAccounts r) ac'); [exact Hseen |].
        simpl. rewrite ContainsAccountCurrency_insert, Hseen. apply orb_true_r.
Qed.

Lemma active_appends_count ac calls r w :
  active_appends (Hash ac) calls r w =
    (if ContainsAccountCurrency (seenAccounts r) ac then 0
     else if existsb (active_on (Hash ac)) calls then 1 else 0)%nat.
Proof.
  revert r. induction calls as [| [[isInactive ac'] block] rest IH]; intros r.
  - simpl. destruct (ContainsAccountCurrency (seenAccounts r) ac); reflexivity.
  - destruct (ContainsAccountCurrency (seenAccounts r) ac) eqn:Hseen.
    { apply active_appends_seen. exact Hseen. }
    cbn [active_appends existsb]. destruct isInactive.
    + rewrite bookkeeping_inactive. cbn [active_on negb andb orb]. simpl.
      rewrite IH. simpl. rewrite Hseen. reflexivity.
    + rewrite bookkeeping_active. cbn [active_on negb andb].
      destruct (String.eqb_spec (Hash ac') (Hash ac)) as [Heq | Hne].
      * rewrite (ContainsAccountCurrency_same_hash _ ac' ac Heq), Hseen.
        cbn [orb]. simpl. rewrite length_app. simpl.
        rewrite active_appends_seen.
        -- lia.
        -- simpl. rewrite ContainsAccountCurrency_insert.
           rewrite Heq, String.eqb_refl. reflexivity.
      * cbn [orb]. rewrite IH. simpl.
        destruct (ContainsAccountCurrency (seenAccounts r) ac') eqn:Hseen'.
        -- rewrite Hseen. reflexivity.
        -- simpl. rewrite ContainsAccountCurrency_insert, Hseen.
           apply String.eqb_neq in Hne. rewrite Hne. reflexivity.
Qed.

Lemma handleSeenAccounts_run queue (l : list jsval) :
  handleSeenAccounts queue l =
    ((queue ++ map (fun s => VObj [("entry", s)]) l)%list,
     fold_left (fun seen s => <[Hash s := VObj []]> seen) l ∅).
Proof.
  unfold handleSeenAccounts. generalize (∅ : gmap string jsval) as seen.
  revert queue. induction l as [| s l IH]; intros queue seen; simpl.
  - rewrite app_nil_r. reflexivity.
  - rewrite IH, <- app_assoc. reflexivity.
Qed.

Lemma seeded_accounts_contained (l : list jsval) (seen : gmap string jsval) ac :
  ac ∈ l \/ ContainsAccountCurrency seen ac = true ->
  ContainsAccountCurrency
    (fold_left (fun seen s => <[Hash s := VObj []]> seen) l seen) ac = true.
Proof.
  revert seen. induction l as [| s l IH]; intros seen [Hin | Hseen]; simpl.
  - inversion Hin.
  - exact Hseen.
  - apply elem_of_cons in Hin as [-> | Hin].
    + apply IH. right. rewrite ContainsAccountCurrency_insert, String.eqb_refl.
      reflexivity.
    + apply IH. left. exact Hin.
  - apply IH. right. rewrite ContainsAccountCurrency_insert, Hseen. apply orb_true_r.
Qed.

Lemma constructor_seen_queue (args : Args W) :
  let seeded := default [] (arg_withSeenAccounts args) in
  inactiveQueue (constructor args) = map (fun s => VObj [("entry", s)]) seeded /\
  seenAccounts (constructor args) =
    fold_left (fun seen s => <[Hash s := VObj []]> seen) seeded ∅.
Proof.
  unfold constructor. rewrite handleSeenAccounts_run. simpl.
  split; reflexivity.
Qed.

Lemma constructor_contains_seeded (args : Args W) l ac :
  arg_withSeenAccounts args = Some l -> ac ∈ l ->
  ContainsAccountCurrency (seenAccounts (constructor args)) ac = true.
Proof.
  intros Hl Hin. destruct (constructor_seen_queue args) as [_ ->]. rewrite Hl. simpl.
  apply seeded_accounts_contained. left. exact Hin.
Qed.

(** The bookkeeping on its own.  Over any sequence of calls of
    [inactiveAccountQueue], the active-path calls on an account make the
    inactive queue grow by exactly one entry in all when the account was not
    in the seen set at the start and is named by at least one of them, and by
    none when it was in the set.  One active-path call appends
    [{ entry, lastCheck }] if and only if the account is not yet in the set,
    and leaves it in the set; one inactive-path call always appends the entry
    and leaves the set alone. *)
Theorem inactive_queue_seeding (calls : list (bool * jsval * jsval)) r w ac block :
  active_appends (Hash ac) calls r w =
    (if ContainsAccountCurrency (seenAccounts r) ac then 0
     else if existsb (active_on (Hash ac)) calls then 1 else 0)%nat /\
  inactiveQueue (bookkeeping (false, ac, block) r w) =
    (inactiveQueue r ++
       if ContainsAccountCurrency (seenAccounts r) ac then []
       else [InactiveEntry ac block])%list /\
  ContainsAccountCurrency (seenAccounts (bookkeeping (false, ac, block) r w)) ac = true /\
  inactiveQueue (bookkeeping (true, ac, block) r w) =
    (inactiveQueue r ++ [InactiveEntry ac block])%list /\
  seenAccounts (bookkeeping (true, ac, block) r w) = seenAccounts r /\
  (forall (args : Args W) l,
     arg_withSeenAccounts args = Some l -> ac ∈ l ->
     active_appends (Hash ac) calls (constructor args) w = 0%nat).
Proof.
  split; [apply active_appends_count |].
  rewrite bookkeeping_active, bookkeeping_inactive.
  repeat split.
  - destruct (ContainsAccountCurrency (seenAccounts r) ac); simpl;
      [rewrite app_nil_r |]; reflexivity.
  - destruct (ContainsAccountCurrency (seenAccounts r) ac) eqn:Hseen; [exact Hseen |].
    simpl. rewrite ContainsAccountCurrency_insert, String.eqb_refl. reflexivity.
  - intros args l Hl Hin. apply active_appends_seen.
    apply (constructor_contains_seeded args l ac Hl Hin).
Qed.

(** A reconciliation makes the bookkeeping call once, or not at all when it
    throws before reaching it; it touches nothing else of the reconciler. *)
Lemma accountReconciliation_bookkeeping fuel a c amount block isInactive r w :
  let r' := reconciler_of (accountReconciliation (S fuel) a c amount block isInactive r w) in
  r' = r \/ r' = bookkeeping (isInactive, AccountCurrency a c, block) r w.
Proof.
  cbv zeta. rewrite accountReconciliation_unfold.
  destruct (compareBalance_cases a c amount block r w) as (o & w1 & Hcmp & Hfuel).
  assert (Hreport : forall locals w',
    let report := accountReconciliation_report a c amount block isInactive locals r w' in
    outcome_of report <> Ok Continue /\
    (reconciler_of report = r \/
     reconciler_of report = bookkeeping (isInactive, AccountCurrency a c, block) r w)).
  { intros locals w'. cbv zeta. rewrite accountReconciliation_report_run. cbv zeta.
    unfold bookkeeping. rewrite !inactiveAccountQueue_run.
    repeat (case_match; simpl); auto. }
  destruct o as [cmp | e |]; [| | done].
  - rewrite (accountReconciliation_pass_compared _ _ _ _ _ _ _ _ _ Hcmp).
    destruct (Hreport cmp w1) as [Hc Hr].
    destruct (accountReconciliation_report a c amount block isInactive cmp r w1)
      as [[[[[| v] | e |] r1] w2] t1]; simpl in *; done.
  - rewrite (accountReconciliation_pass_thrown _ _ _ _ _ _ _ _ _ Hcmp).
    rewrite accountReconciliation_catch_run.
    destruct e as [type | | | v]; simpl; auto.
    destruct (String.eqb type RECONCILIATION_ERROR_HEAD_BEHIND_LIVE).
    + destruct (get_prop block "index"); auto.
    + destruct (Hreport unassigned w1) as [Hc Hr].
      destruct (accountReconciliation_report a c amount block isInactive unassigned r w1)
        as [[[[[| v] | e |] r1] w2] t1]; simpl in *; done.
Qed.

(** ** C5: the front of the inactive queue *)

(** The entries the reconciler pushes carry [lastCheck] (or no block at
    all); the loop reads [last_check]. *)
Lemma pushed_entries_have_no_last_check ac block :
  get_prop (InactiveEntry ac block) "last_check" = inr VUndef /\
  get_prop (VObj [("entry", ac)]) "last_check" = inr VUndef.
Proof. split; reflexivity. Qed.

Lemma inactive_front_ready_unread head front rest r w :
  inactiveQueue r = front :: rest ->
  get_prop front "last_check" = inr VUndef ->
  inactive_front_ready head r w = (Ok true, r, w, []).
Proof.
  intros Hq Hlc. unfold inactive_front_ready, bind, this, prop, lift.
  rewrite Hq, Hlc. reflexivity.
Qed.

(** Whatever the head and the required depth, a pushed entry at the front is
    popped as soon as [currentBlock] does not throw synchronously. *)
Lemma reconcileInactiveAccounts_pass_pops fuel front rest r w call w1 head :
  inactiveQueue r = front :: rest ->
  get_prop front "last_check" = inr VUndef ->
  currentBlock (helper r) w = (call, w1) ->
  no_await call = inr head ->
  inactiveQueue (reconciler_of (reconcileInactiveAccounts_pass fuel r w)) = rest /\
  (trace_of (reconcileInactiveAccounts_pass fuel r w) = [] \/
   exists net a partial,
     trace_of (reconcileInactiveAccounts_pass fuel r w) = [EvFetch net a partial]).
Proof.
  intros Hq Hlc Hcall Hhead.
  destruct (reconcileInactiveAccounts_pass fuel r w) as [[[o r'] w'] t'] eqn:Hrun.
  revert Hrun. unfold reconcileInactiveAccounts_pass.
  unfold bind at 1. unfold this at 1. unfold bind at 1. unfold invoke at 1.
  rewrite Hcall, Hhead.
  unfold bind at 1. rewrite (inactive_front_ready_unread head front rest r w1 Hq Hlc).
  unfold bind at 1. unfold this at 1. rewrite Hq. cbn [shift].
  unfold bind at 1. unfold modify at 1.
  unfold bestBalance, getCurrencyBalance, this_extractAmount.
  unfold bind, this, emit, extern, prop, lift, throw, ret.
  unfold reconciler_of, trace_of.
  repeat (simpl; case_match; simplify_eq; try done);
    intros; simplify_eq; simpl; (split; [reflexivity |]); eauto 6.
Qed.

End Properties.

(** * The claims at concrete reconcilers *)

Section Faults.

Import Examples.

Context {L : Lang} {U : Utils}.

(** C2 (the code does neither).  Head at 100, claimed block at 105, default
    threshold 10000: the lag of 5 is below the threshold, yet the attempt
    neither sleeps nor retries.  [headIndex] is still [undefined] in the catch
    clause, the difference is [NaN], the comparison with the threshold is
    false, and the assignment to [highWaterMark] reads the unbound
    [partialBlockIdentifier]: the attempt ends in a ReferenceError, with
    [highWaterMark] as it was, after a single log line. *)
Theorem head_behind_live_neither_retries_nor_raises_mark fuel :
  waitToCheckDiff (reconciler_at 100 true (balance_reply "500" 90)) = VNum 10000 /\
  js_lt (js_sub (VNum 105) (VNum 100))
    (waitToCheckDiff (reconciler_at 100 true (balance_reply "500" 90))) = true /\
  outcome_of (compareBalance alice DGB (VStr "500") (block_at 105)
                (reconciler_at 100 true (balance_reply "500" 90)) tt)
    = Throw (ReconcilerError RECONCILIATION_ERROR_HEAD_BEHIND_LIVE) /\
  accountReconciliation (S fuel) alice DGB (VStr "500") (block_at 105) false
    (reconciler_at 100 true (balance_reply "500" 90)) tt
    = (Throw ReferenceError, reconciler_at 100 true (balance_reply "500" 90), tt, [EvLog]).
Proof.
  repeat (split; [reflexivity |]).
  eapply head_behind_live_faults; reflexivity.
Qed.

(** At the default configuration the caller's block is dropped. *)
Lemma bestBalance_default_drops_block :
  lookupBalanceByBlock (reconciler_at 100 true (balance_reply "500" 90)) = VBool true /\
  trace_of (bestBalance alice DGB (VObj [("index", VNum 5)])
              (reconciler_at 100 true (balance_reply "500" 90)) tt)
    = [EvFetch mainnet alice VNull].
Proof. split; reflexivity. Qed.

(** C4 (the code stores the wrong key).  The merged configuration holds
    [highWaterMark = -1], but the constructor copies [lookupBalanceByBlock]
    into the field: a reconciler built without overrides starts with
    [highWaterMark = true]. *)
Theorem fresh_highWaterMark_is_the_lookup_flag {W : Type} net
  (h : Helper W) (hd : Handler W) (f : Fetcher W) :
  cfg_highWaterMark (assign defaults (plain_args net h hd f)) = VNum (-1) /\
  highWaterMark (constructor (plain_args net h hd f)) = VBool true.
Proof. split; reflexivity. Qed.

(** C5 (the code pops the entry).  An entry requeued at block 1000, required
    depth 500, head at 1400: the depth test would say no, but the loop reads
    [last_check] where the entry has [lastCheck], finds [undefined], takes
    the entry for never-checked and pops it. *)
Theorem requeued_entry_popped_before_required_depth fuel :
  requiredDepthInactive
    (bookkeeping (true, AccountCurrency alice DGB, block_at 1000)
       (reconciler_at 1400 true (balance_reply "500" 1000)) tt) = VNum 500 /\
  inactiveQueue
    (bookkeeping (true, AccountCurrency alice DGB, block_at 1000)
       (reconciler_at 1400 true (balance_reply "500" 1000)) tt)
    = [InactiveEntry (AccountCurrency alice DGB) (block_at 1000)] /\
  js_lt (js_add (VNum 1000) (VNum 500)) (VNum 1400) = false /\
  outcome_of
    (inactive_front_ready (block_at 1400)
       (bookkeeping (true, AccountCurrency alice DGB, block_at 1000)
          (reconciler_at 1400 true (balance_reply "500" 1000)) tt) tt) = Ok true /\
  inactiveQueue
    (reconciler_of
       (reconcileInactiveAccounts_pass (S fuel)
          (bookkeeping (true, AccountCurrency alice DGB, block_at 1000)
             (reconciler_at 1400 true (balance_reply "500" 1000)) tt) tt)) = [].
Proof.
  rewrite bookkeeping_inactive.
  repeat (split; [reflexivity |]).
  eapply reconcileInactiveAccounts_pass_pops; reflexivity.
Qed.

End Faults.

Section Matched.

Context {L : Lang} {W : Type}.
Variable hash : jsval -> string.
Variable partialBlock : jsval -> result jsval.

(** C8 (amended).  Head at index 100, claimed block at index 100 and still
    on the chain, cached balance "500" last updated no later than the claimed
    block, claimed amount "500": the comparison yields the difference "0";
    the failure callback is not invoked, the bookkeeping runs, and the
    success callback is invoked exactly once, with the reconciliation type,
    account, currency, amount and block, what it answers (or throws) being
    the outcome of the reconciliation. *)
Theorem matched_balance_succeeds_once
  fuel a c block isInactive (r : RosettaReconciler W) w
  call w1 head exists_ w2 balance w3 cached balanceBlock updated :
  currentBlock (helper r) w = (call, w1) ->
  await call = inr head ->
  get_prop head "index" = inr (VNum 100) ->
  get_prop block "index" = inr (VNum 100) ->
  blockExists (helper r) block w1 = (inr exists_, w2) ->
  truthy exists_ = true ->
  accountBalance (helper r) a c head w2 = (inr balance, w3) ->
  get_prop balance "cachedBalance" = inr cached ->
  get_prop cached "value" = inr (VStr "500") ->
  get_prop balance "balanceBlock" = inr balanceBlock ->
  get_prop balanceBlock "index" = inr updated ->
  js_lt (VNum 100) updated = false ->
  let run :=
    accountReconciliation (U := spec_Utils hash partialBlock)
      (S fuel) a c (VStr "500") block isInactive r w in
  let reply :=
    reconciliationSucceeded (handler r) (reconciliationType isInactive) a c
      (VStr "500") block w3 in
  compareBalance (U := spec_Utils hash partialBlock) a c (VStr "500") block r w
    = (Ok {| difference := VStr "0"; cachedBalance := VStr "500";
             headIndex := VNum 100 |}, r, w3, []) /\
  trace_of run = [EvSucceeded (reconciliationType isInactive) a c (VStr "500") block] /\
  outcome_of run = match reply.1 with inl e => Throw e | inr v => Ok v end /\
  world_of run = reply.2 /\
  reconciler_of run =
    bookkeeping (U := spec_Utils hash partialBlock)
      (isInactive, AccountCurrency a c, block) r w.
Proof.
  intros Hcall Hawait Hhi Hbi Hexists Htruthy Hbalance Hcached Hvalue Hbb Hupdated Hlt.
  cbv zeta.
  assert (Hcmp : compareBalance (U := spec_Utils hash partialBlock)
                   a c (VStr "500") block r w
                 = (Ok {| difference := VStr "0"; cachedBalance := VStr "500";
                          headIndex := VNum 100 |}, r, w3, [])).
  { unfold compareBalance, bind, this, invoke, extern, prop, lift, throw, ret.
    rewrite Hcall, Hawait. simpl. rewrite Hbi, Hhi. simpl.
    rewrite Hexists. simpl. rewrite Htruthy. simpl.
    rewrite Hbalance. simpl. rewrite Hcached, Hbb. simpl. rewrite Hupdated. simpl.
    rewrite Hlt, Hvalue. reflexivity. }
  split; [exact Hcmp |].
  rewrite accountReconciliation_unfold.
  rewrite (accountReconciliation_pass_compared _ _ _ _ _ _ _ _ _ Hcmp).
  rewrite accountReconciliation_report_run. cbv zeta. simpl.
  unfold bookkeeping. rewrite !inactiveAccountQueue_run.
  destruct (reconciliationSucceeded (handler r) (reconciliationType isInactive) a c
              (VStr "500") block w3) as [[e | v] w4]; split_and!; reflexivity.
Qed.

End Matched.

(** * The claims at concrete inputs *)

Module Instances.

Import Examples.

#[local] Existing Instance lang.
#[local] Existing Instance utils.

(** C3, as first stated, fails: cached "500", claimed "300" at block 100 with
    the head at 100.  The difference is "200", the failure callback is
    invoked with those values and reports nothing, and the success callback
    is invoked after it. *)
Lemma success_callback_follows_quiet_failure :
  outcome_of (compareBalance alice DGB (VStr "300") (block_at 100)
                (reconciler_at 100 true (balance_reply "500" 90)) tt)
    = Ok {| difference := VStr "200"; cachedBalance := VStr "500";
            headIndex := VNum 100 |} /\
  trace_of (accountReconciliation 1 alice DGB (VStr "300") (block_at 100) false
              (reconciler_at 100 true (balance_reply "500" 90)) tt)
    = [EvFailed RECONCILIATION_ACTIVE alice DGB (VStr "500") (VStr "300") (block_at 100);
       EvSucceeded RECONCILIATION_ACTIVE alice DGB (VStr "300") (block_at 100)].
Proof. split; vm_compute; reflexivity. Qed.

Lemma mismatch_reports_failure_witness :
  trace_of (accountReconciliation 1 alice DGB (VStr "300") (block_at 100) false
              (reconciler_at 100 true (balance_reply "500" 90)) tt)
    = [EvFailed RECONCILIATION_ACTIVE alice DGB (VStr "500") (VStr "300") (block_at 100);
       EvSucceeded RECONCILIATION_ACTIVE alice DGB (VStr "300") (block_at 100)].
Proof.
  exact (proj1 (mismatch_reports_failure 0 alice DGB (VStr "300") (block_at 100) false
                  (reconciler_at 100 true (balance_reply "500" 90)) tt
                  {| difference := VStr "200"; cachedBalance := VStr "500";
                     headIndex := VNum 100 |}
                  (reconciler_at 100 true (balance_reply "500" 90)) tt []
                  eq_refl eq_refl)).
Defined.

(** C7, as first stated, fails: head at 100, claimed block at 101,
    [blockExists] answering false.  The head check comes first and the
    outcome is HeadBehindLive. *)
Lemma missing_block_above_head_is_head_behind_live :
  blockExists (helper (reconciler_at 100 false (balance_reply "500" 90)))
    (block_at 101) tt = (inr (VBool false), tt) /\
  outcome_of (compareBalance alice DGB (VStr "500") (block_at 101)
                (reconciler_at 100 false (balance_reply "500" 90)) tt)
    = Throw (ReconcilerError RECONCILIATION_ERROR_HEAD_BEHIND_LIVE) /\
  outcome_of (compareBalance alice DGB (VStr "500") (block_at 101)
                (reconciler_at 100 false (balance_reply "500" 90)) tt)
    <> Throw (ReconcilerError RECONCILIATION_ERROR_BLOCK_GONE).
Proof. split; [| split]; [reflexivity | reflexivity | discriminate]. Qed.

Lemma block_gone_when_existence_check_reached_witness :
  compareBalance alice DGB (VStr "500") (block_at 100)
    (reconciler_at 100 false (balance_reply "500" 90)) tt
  = (Throw (ReconcilerError RECONCILIATION_ERROR_BLOCK_GONE),
     reconciler_at 100 false (balance_reply "500" 90), tt, []).
Proof.
  apply (block_gone_when_existence_check_reached alice DGB (VStr "500") (block_at 100)
           (reconciler_at 100 false (balance_reply "500" 90)) tt
           (Promise (inr (block_at 100))) tt (block_at 100) (VNum 100) (VNum 100)
           (VBool false) tt); reflexivity.
Defined.

Lemma matched_balance_succeeds_once_witness :
  compareBalance alice DGB (VStr "500") (block_at 100)
    (reconciler_at 100 true (balance_reply "500" 90)) tt
    = (Ok {| difference := VStr "0"; cachedBalance := VStr "500";
             headIndex := VNum 100 |},
       reconciler_at 100 true (balance_reply "500" 90), tt, []) /\
  trace_of (accountReconciliation 1 alice DGB (VStr "500") (block_at 100) false
              (reconciler_at 100 true (balance_reply "500" 90)) tt)
    = [EvSucceeded RECONCILIATION_ACTIVE alice DGB (VStr "500") (block_at 100)] /\
  outcome_of (accountReconciliation 1 alice DGB (VStr "500") (block_at 100) false
                (reconciler_at 100 true (balance_reply "500" 90)) tt)
    = Ok VUndef.
Proof.
  destruct (matched_balance_succeeds_once (@Hash utils)
              (@constructPartialBlockIdentifier utils) 0 alice DGB (block_at 100) false
              (reconciler_at 100 true (balance_reply "500" 90)) tt
              (Promise (inr (block_at 100))) tt (block_at 100) (VBool true) tt
              (balance_reply "500" 90) tt
              (VObj [("value", VStr "500"); ("currency", DGB)]) (block_at 90) (VNum 90)
              eq_refl eq_refl eq_refl eq_refl eq_refl eq_refl eq_refl eq_refl eq_refl
              eq_refl eq_refl eq_refl)
    as (Hcmp & Htrace & Houtcome & _ & _).
  split_and!; [exact Hcmp | exact Htrace | exact Houtcome].
Defined.

(** The same requeued entry with a concrete [constructPartialBlockIdentifier]:
    the pass goes on to the fetcher, and ends in the TypeError of
    [this.extractAmount]. *)
Lemma requeued_entry_is_fetched :
  reconcileInactiveAccounts_pass 1
    (bookkeeping (true, AccountCurrency alice DGB, block_at 1000)
       (reconciler_at 1400 true (balance_reply "500" 1000)) tt) tt
  = (Throw TypeError, reconciler_at 1400 true (balance_reply "500" 1000), tt,
     [EvFetch mainnet alice VNull]).
Proof. vm_compute. reflexivity. Qed.

Lemma reconcileActiveAccounts_faults_on_empty_queue_witness :
  reconcileActiveAccounts 1 (reconciler_at 100 true (balance_reply "500" 90)) tt
  = (Throw TypeError,
     set_changeQueue [] (reconciler_at 100 true (balance_reply "500" 90)), tt, []) /\
  trace_of (reconcileActiveAccounts 1
              (reconciler_at 100 true (balance_reply "500" 90)) tt) = [].
Proof.
  apply (reconcileActiveAccounts_faults_on_empty_queue 0
           (reconciler_at 100 true (balance_reply "500" 90)) tt).
  reflexivity.
Defined.

Lemma skipped_attempt_witness :
  trace_of (accountReconciliation 1 alice DGB (VStr "500") (block_at 100) false
              (reconciler_at 100 false (balance_reply "500" 90)) tt)
    = [EvFailed RECONCILIATION_ACTIVE alice DGB VUndef (VStr "500") (block_at 100);
       EvSucceeded RECONCILIATION_ACTIVE alice DGB (VStr "500") (block_at 100)].
Proof.
  exact (proj1 (proj2
    (skipped_attempt_reports_failure_then_success 0 alice DGB (VStr "500")
       (block_at 100) false (reconciler_at 100 false (balance_reply "500" 90)) tt
       RECONCILIATION_ERROR_BLOCK_GONE
       (reconciler_at 100 false (balance_reply "500" 90)) tt []
       eq_refl (or_intror eq_refl)))).
Defined.

Lemma inactive_queue_seeding_witness :
  active_appends (Hash (AccountCurrency alice DGB)) four_calls
    (reconciler_at 100 true (balance_reply "500" 90)) tt = 1%nat /\
  active_appends (Hash (AccountCurrency alice DGB)) four_calls
    (constructor seeded_args) tt = 0%nat.
Proof.
  pose proof (inactive_queue_seeding four_calls
                (reconciler_at 100 true (balance_reply "500" 90)) tt
                (AccountCurrency alice DGB) (block_at 10)) as [Hcount Hrest].
  split.
  - exact Hcount.
  - apply (proj2 (proj2 (proj2 (proj2 Hrest))) seeded_args [AccountCurrency alice DGB]).
    + reflexivity.
    + apply list_elem_of_here.
Defined.

End Instances.

(** * Further properties of the class *)

Section Comparator.

Context {L : Lang} {U : Utils} {W : Type}.

Implicit Types (r : RosettaReconciler W) (w : W).

(** X2.  With the claimed block at or below the head and still on the chain,
    a cached balance that was last updated at a block above the claimed one
    makes [compareBalance] fail with AccountUpdated; the amounts are not
    subtracted. *)
Theorem account_updated_after_claimed_block
  a c amount block r w call w1 head bi hi exists_ w2 balance w3
  cached balanceBlock updated :
  currentBlock (helper r) w = (call, w1) ->
  await call = inr head ->
  get_prop block "index" = inr bi ->
  get_prop head "index" = inr hi ->
  js_gt bi hi = false ->
  blockExists (helper r) block w1 = (inr exists_, w2) ->
  truthy exists_ = true ->
  accountBalance (helper r) a c head w2 = (inr balance, w3) ->
  get_prop balance "cachedBalance" = inr cached ->
  get_prop balance "balanceBlock" = inr balanceBlock ->
  get_prop balanceBlock "index" = inr updated ->
  js_lt bi updated = true ->
  compareBalance a c amount block r w =
    (Throw (ReconcilerError RECONCILIATION_ERROR_ACCOUNT_UPDATED), r, w3, []).
Proof.
  intros Hcall Hawait Hbi Hhi Hgt Hexists Htruthy Hbalance Hcached Hbb Hupdated Hlt.
  unfold compareBalance, bind, this, invoke, extern, prop, lift, throw, ret.
  rewrite Hcall, Hawait. simpl. rewrite Hbi, Hhi. simpl. rewrite Hgt, Hexists. simpl.
  rewrite Htruthy. simpl. rewrite Hbalance. simpl. rewrite Hcached, Hbb. simpl.
  rewrite Hupdated. simpl. rewrite Hlt. reflexivity.
Qed.

(** X3.  When the three checks pass, [compareBalance] returns the difference
    [SubtractValues(cachedBalance.value, amount)] together with the cached
    value and the head's index; an error of [SubtractValues] or a cached
    balance that is [undefined] or [null] makes it throw instead. *)
Theorem compareBalance_completes
  a c amount block r w call w1 head bi hi exists_ w2 balance w3
  cached balanceBlock updated :
  currentBlock (helper r) w = (call, w1) ->
  await call = inr head ->
  get_prop block "index" = inr bi ->
  get_prop head "index" = inr hi ->
  js_gt bi hi = false ->
  blockExists (helper r) block w1 = (inr exists_, w2) ->
  truthy exists_ = true ->
  accountBalance (helper r) a c head w2 = (inr balance, w3) ->
  get_prop balance "cachedBalance" = inr cached ->
  get_prop balance "balanceBlock" = inr balanceBlock ->
  get_prop balanceBlock "index" = inr updated ->
  js_lt bi updated = false ->
  compareBalance a c amount block r w =
    (match get_prop cached "value" with
     | inl e => Throw e
     | inr value =>
         match SubtractValues value amount with
         | inl e => Throw e
         | inr diff =>
             Ok {| difference := diff; cachedBalance := value; headIndex := hi |}
         end
     end, r, w3, []).
Proof.
  intros Hcall Hawait Hbi Hhi Hgt Hexists Htruthy Hbalance Hcached Hbb Hupdated Hlt.
  unfold compareBalance, bind, this, invoke, extern, prop, lift, throw, ret.
  rewrite Hcall, Hawait. simpl. rewrite Hbi, Hhi. simpl. rewrite Hgt, Hexists. simpl.
  rewrite Htruthy. simpl. rewrite Hbalance. simpl. rewrite Hcached, Hbb. simpl.
  rewrite Hupdated. simpl. rewrite Hlt.
  destruct (get_prop cached "value") as [e | value]; [reflexivity |]. simpl.
  destruct (SubtractValues value amount) as [e | diff]; reflexivity.
Qed.

End Comparator.

Section Coordinator.

Context {L : Lang} {U : Utils} {W : Type}.

Implicit Types (r : RosettaReconciler W) (w : W).

(** X4.  An error of the comparator that is not a [ReconcilerError] (a
    failing helper, a malformed block) is rethrown as it is: no callback is
    invoked, nothing is logged, and the reconciler is left untouched, the
    bookkeeping included. *)
Theorem unclassified_error_is_rethrown
  fuel a c amount block isInactive r w e r1 w1 t1 :
  compareBalance a c amount block r w = (Throw e, r1, w1, t1) ->
  (forall type, e <> ReconcilerError type) ->
  accountReconciliation (S fuel) a c amount block isInactive r w = (Throw e, r, w1, []).
Proof.
  intros Hcmp Hfatal. destruct (compareBalance_inv Hcmp) as [-> ->].
  rewrite accountReconciliation_unfold.
  rewrite (accountReconciliation_pass_thrown _ _ _ _ _ _ _ _ _ Hcmp).
  rewrite accountReconciliation_catch_run.
  destruct e as [type | | | v]; try reflexivity.
  destruct (Hfatal type eq_refl).
Qed.

(** X6.  After a completed comparison whose difference is loosely equal to
    ["0"], the failure callback is not invoked; the bookkeeping runs and the
    success callback is invoked exactly once, with the reconciliation type,
    account, currency, claimed amount and block, its result (or the error it
    throws) being the outcome. *)
Theorem match_reports_success_only
  fuel a c amount block isInactive r w cmp r1 w1 t1 :
  compareBalance a c amount block r w = (Ok cmp, r1, w1, t1) ->
  loose_neq_zero_string (difference cmp) = false ->
  let kind := reconciliationType isInactive in
  let run := accountReconciliation (S fuel) a c amount block isInactive r w in
  let reply := reconciliationSucceeded (handler r) kind a c amount block w1 in
  trace_of run = [EvSucceeded kind a c amount block] /\
  reconciler_of run = bookkeeping (isInactive, AccountCurrency a c, block) r w /\
  outcome_of run = match reply.1 with inl e => Throw e | inr v => Ok v end.
Proof.
  intros Hcmp Hdiff. destruct (compareBalance_inv Hcmp) as [-> ->]. cbv zeta.
  pose proof (accountReconciliation_pass_compared a c amount block isInactive
                r w cmp w1 Hcmp) as Hpass.
  rewrite accountReconciliation_unfold, Hpass, accountReconciliation_report_run.
  cbv zeta. rewrite Hdiff. unfold bookkeeping. rewrite !inactiveAccountQueue_run.
  destruct (reconciliationSucceeded (handler r) (reconciliationType isInactive)
              a c amount block w1) as [[e | v] w2]; simpl; split_and!; reflexivity.
Qed.

Lemma accountReconciliation_report_table a c amount block isInactive locals r w w' :
  let report := accountReconciliation_report a c amount block isInactive locals r w' in
  let kind := reconciliationType isInactive in
  let failed := EvFailed kind a c (cachedBalance locals) amount block in
  let succeeded := EvSucceeded kind a c amount block in
  (exists e, outcome_of report = Throw e /\ reconciler_of report = r /\
             trace_of report = [failed]) \/
  ((exists v, outcome_of report = Ok (Return v)) \/ (exists e, outcome_of report = Throw e)) /\
  reconciler_of report = bookkeeping (isInactive, AccountCurrency a c, block) r w /\
  (trace_of report = [succeeded] \/ trace_of report = [failed; succeeded]).
Proof.
  cbv zeta. rewrite accountReconciliation_report_run. cbv zeta.
  unfold bookkeeping. rewrite !inactiveAccountQueue_run.
  repeat (case_match; simpl); eauto 10.
Qed.

(** X7.  Every reconciliation ends in one of two ways.  Either it throws
    before the bookkeeping, leaving the reconciler as it was, after no
    callback at all (possibly one log line) or after the failure callback
    alone; or it runs the bookkeeping once and then the success callback
    once, preceded by at most one failure callback.  No callback is invoked
    twice, the success callback never comes first of two, the callbacks
    always receive the call's own type, account, currency, amount and block,
    and the reconciliation never sleeps. *)
Theorem accountReconciliation_outcomes fuel a c amount block isInactive r w :
  let run := accountReconciliation (S fuel) a c amount block isInactive r w in
  let kind := reconciliationType isInactive in
  let succeeded := EvSucceeded kind a c amount block in
  (exists e, outcome_of run = Throw e /\ reconciler_of run = r /\
     (trace_of run = [] \/ trace_of run = [EvLog] \/
      exists cached, trace_of run = [EvFailed kind a c cached amount block])) \/
  ((exists v, outcome_of run = Ok v) \/ (exists e, outcome_of run = Throw e)) /\
  reconciler_of run = bookkeeping (isInactive, AccountCurrency a c, block) r w /\
  (trace_of run = [succeeded] \/
   exists cached, trace_of run = [EvFailed kind a c cached amount block; succeeded]).
Proof.
  cbv zeta. rewrite accountReconciliation_unfold.
  destruct (compareBalance_cases a c amount block r w) as (o & w1 & Hcmp & Hfuel).
  assert (Hreport : forall locals,
    let report := accountReconciliation_report a c amount block isInactive locals r w1 in
    let run :=
      match report with
      | (Ok (Return v), r1, w2, t1) => (Ok v, r1, w2, t1)
      | (Ok Continue, r1, w2, t1) =>
          match accountReconciliation fuel a c amount block isInactive r1 w2 with
          | (o, r2, w3, t2) => (o, r2, w3, (t1 ++ t2)%list)
          end
      | (Throw e, r1, w2, t1) => (Throw e, r1, w2, t1)
      | (OutOfFuel, r1, w2, t1) => (OutOfFuel, r1, w2, t1)
      end in
    (exists e, outcome_of run = Throw e /\ reconciler_of run = r /\
       (trace_of run = [] \/ trace_of run = [EvLog] \/
        exists cached,
          trace_of run = [EvFailed (reconciliationType isInactive) a c cached amount block]))
    \/
    ((exists v, outcome_of run = Ok v) \/ (exists e, outcome_of run = Throw e)) /\
    reconciler_of run = bookkeeping (isInactive, AccountCurrency a c, block) r w /\
    (trace_of run = [EvSucceeded (reconciliationType isInactive) a c amount block] \/
     exists cached,
       trace_of run = [EvFailed (reconciliationType isInactive) a c cached amount block;
                       EvSucceeded (reconciliationType isInactive) a c amount block])).
  { intros locals. cbv zeta.
    pose proof (accountReconciliation_report_table a c amount block isInactive
                  locals r w w1) as Htable. cbv zeta in Htable.
    destruct (accountReconciliation_report a c amount block isInactive locals r w1)
      as [[[o' r1] w2] t1].
    unfold outcome_of, reconciler_of, trace_of in *. simpl in *.
    destruct Htable as [(e & -> & -> & ->) | ([(v & ->) | (e & ->)] & -> & Ht)].
    - left. eauto 10.
    - right. split; [eauto |]. split; [reflexivity |].
      destruct Ht as [-> | ->]; eauto.
    - right. split; [eauto |]. split; [reflexivity |].
      destruct Ht as [-> | ->]; eauto. }
  destruct o as [cmp | e |]; [| | done].
  - rewrite (accountReconciliation_pass_compared _ _ _ _ _ _ _ _ _ Hcmp).
    apply Hreport.
  - rewrite (accountReconciliation_pass_thrown _ _ _ _ _ _ _ _ _ Hcmp).
    rewrite accountReconciliation_catch_run.
    destruct e as [type | | | v]; try solve [left; simpl; eauto 10].
    destruct (String.eqb type RECONCILIATION_ERROR_HEAD_BEHIND_LIVE).
    + destruct (get_prop block "index"); left; simpl; eauto 10.
    + apply Hreport.
Qed.

End Coordinator.

Section Loops.

Context {L : Lang} {U : Utils} {W : Type}.

Implicit Types (r : RosettaReconciler W) (w : W).

(** X8.  [getCurrencyBalance] calls the fetcher exactly once, with the
    network, account and partial block identifier it was given, and never
    returns a balance: it throws the fetcher's own error when the fetch
    fails and a TypeError otherwise, because it calls the static
    [extractAmount] through [this].  The reconciler is left untouched. *)
Theorem getCurrencyBalance_never_returns (f : Fetcher W) net a c partial r w :
  let reply := AcountBalanceRetry f net a partial w in
  getCurrencyBalance f net a c partial r w =
    (Throw (match reply.1 with inl e => e | inr _ => TypeError end),
     r, reply.2, [EvFetch net a partial]).
Proof.
  cbv zeta. unfold getCurrencyBalance, this_extractAmount.
  unfold bind, emit, extern, prop, lift, throw, ret. simpl.
  destruct (AcountBalanceRetry f net a partial w) as [[e | response] w1]; simpl;
    [reflexivity |].
  destruct response; reflexivity.
Qed.

Lemma bestBalance_run a c partial r w :
  let sent := if truthy (lookupBalanceByBlock r) then VNull else partial in
  let reply := AcountBalanceRetry (fetcher r) (network r) a sent w in
  bestBalance a c partial r w =
    (Throw (match reply.1 with inl e => e | inr _ => TypeError end),
     r, reply.2, [EvFetch (network r) a sent]).
Proof.
  cbv zeta. unfold bestBalance, getCurrencyBalance, this_extractAmount.
  unfold bind, this, emit, extern, prop, lift, throw, ret. simpl.
  destruct (AcountBalanceRetry (fetcher r) (network r) a
              (if truthy (lookupBalanceByBlock r) then VNull else partial) w)
    as [[e | response] w1]; simpl; [reflexivity |].
  destruct response; reflexivity.
Qed.

Lemma reconcileActiveAccounts_pass_stale fuel r w balanceChange rest :
  changeQueue r = balanceChange :: rest ->
  stale (highWaterMark r) balanceChange = true ->
  reconcileActiveAccounts_pass fuel r w = (Ok tt, set_changeQueue rest r, w, []).
Proof.
  intros Hq Hstale. unfold stale in Hstale.
  unfold reconcileActiveAccounts_pass, bind, this, modify, prop, lift, ret.
  rewrite Hq. simpl.
  destruct (get_prop balanceChange "block") as [e | block]; [discriminate |]. simpl.
  destruct (get_prop block "index") as [e | index]; [discriminate |]. simpl.
  rewrite Hstale. reflexivity.
Qed.

(** A change that is not [undefined] or [null] has (possibly undefined)
    properties. *)
Lemma get_prop_defined v k k' x :
  get_prop v k = inr x -> exists y, get_prop v k' = inr y.
Proof. destruct v; simpl; intros Hx; try discriminate; eauto. Qed.

Lemma reconcileActiveAccounts_pass_live fuel r w balanceChange rest block index partial :
  changeQueue r = balanceChange :: rest ->
  get_prop balanceChange "block" = inr block ->
  get_prop block "index" = inr index ->
  js_lt index (highWaterMark r) = false ->
  constructPartialBlockIdentifier block = inr partial ->
  exists account,
    get_prop balanceChange "account_identifier" = inr account /\
    let sent := if truthy (lookupBalanceByBlock r) then VNull else partial in
    let reply := AcountBalanceRetry (fetcher r) (network r) account sent w in
    reconcileActiveAccounts_pass fuel r w =
      (Throw (match reply.1 with inl e => e | inr _ => TypeError end),
       set_changeQueue rest r, reply.2, [EvFetch (network r) account sent]).
Proof.
  intros Hq Hblock Hindex Hlive Hpartial.
  destruct (get_prop_defined _ _ "account_identifier" _ Hblock) as [account Haccount].
  destruct (get_prop_defined _ _ "currency" _ Hblock) as [currency Hcurrency].
  exists account. split; [exact Haccount |]. cbv zeta.
  unfold reconcileActiveAccounts_pass.
  unfold bind at 1. unfold this at 1. rewrite Hq. cbn [shift].
  unfold bind at 1. unfold modify at 1.
  unfold bind at 1. unfold prop at 1. rewrite Hblock. unfold lift at 1, ret at 1.
  unfold bind at 1. unfold prop at 1. rewrite Hindex. unfold lift at 1, ret at 1.
  unfold bind at 1. unfold this at 1.
  change (highWaterMark (set_changeQueue rest r)) with (highWaterMark r).
  rewrite Hlive.
  unfold bind at 1. unfold prop at 1. rewrite Haccount. unfold lift at 1, ret at 1.
  unfold bind at 1. unfold prop at 1. rewrite Hcurrency. unfold lift at 1, ret at 1.
  unfold bind at 1. unfold prop at 1. rewrite Hblock. unfold lift at 1, ret at 1.
  unfold bind at 1. rewrite Hpartial. unfold lift at 1, ret at 1.
  unfold bind at 1.
  rewrite (bestBalance_run account currency partial (set_changeQueue rest r) w).
  reflexivity.
Qed.

Lemma reconcileActiveAccounts_step_stale fuel r w balanceChange rest :
  changeQueue r = balanceChange :: rest ->
  stale (highWaterMark r) balanceChange = true ->
  reconcileActiveAccounts (S fuel) r w =
    reconcileActiveAccounts fuel (set_changeQueue rest r) w.
Proof.
  intros Hq Hstale. cbn [reconcileActiveAccounts]. unfold bind.
  rewrite (reconcileActiveAccounts_pass_stale (S fuel) r w _ _ Hq Hstale).
  destruct (reconcileActiveAccounts fuel (set_changeQueue rest r) w) as [[[o r1] w1] t1].
  reflexivity.
Qed.

(** X9.  A change queue holding only stale events (block index below
    [highWaterMark]) is drained without a single fetch or callback, after
    which the loop faults on the empty queue with a TypeError. *)
Theorem active_loop_drains_stale_events fuel r w :
  Forall (fun balanceChange => stale (highWaterMark r) balanceChange = true)
    (changeQueue r) ->
  (length (changeQueue r) < fuel)%nat ->
  reconcileActiveAccounts fuel r w = (Throw TypeError, set_changeQueue [] r, w, []).
Proof.
  remember (changeQueue r) as q eqn:Hq. revert r fuel Hq.
  induction q as [| balanceChange rest IH]; intros r fuel Hq Hstale Hfuel.
  - destruct fuel as [| fuel]; [inversion Hfuel |].
    cbn [reconcileActiveAccounts]. unfold bind.
    rewrite (shift_empty_pass (S fuel) r w (eq_sym Hq)). reflexivity.
  - destruct fuel as [| fuel]; [inversion Hfuel |].
    apply Forall_cons in Hstale as [Hhead Hrest].
    rewrite (reconcileActiveAccounts_step_stale fuel r w _ _ (eq_sym Hq) Hhead).
    rewrite (IH (set_changeQueue rest r) fuel eq_refl Hrest).
    + reflexivity.
    + simpl in Hfuel. lia.
Qed.

(** X10.  The active loop is first-in first-out up to its first live
    event: it skips the stale events at the front of the queue, fetches the
    balance of the first event that is not stale, and then stops with the
    error of that fetch (a TypeError if the fetch succeeds).  The events
    behind it stay queued and no callback is invoked. *)
Theorem active_loop_stops_at_first_live_event
  fuel r w skipped balanceChange rest block index partial :
  changeQueue r = (skipped ++ balanceChange :: rest)%list ->
  Forall (fun ev => stale (highWaterMark r) ev = true) skipped ->
  get_prop balanceChange "block" = inr block ->
  get_prop block "index" = inr index ->
  js_lt index (highWaterMark r) = false ->
  constructPartialBlockIdentifier block = inr partial ->
  (length skipped < fuel)%nat ->
  exists account,
    get_prop balanceChange "account_identifier" = inr account /\
    let sent := if truthy (lookupBalanceByBlock r) then VNull else partial in
    let reply := AcountBalanceRetry (fetcher r) (network r) account sent w in
    reconcileActiveAccounts fuel r w =
      (Throw (match reply.1 with inl e => e | inr _ => TypeError end),
       set_changeQueue rest r, reply.2, [EvFetch (network r) account sent]).
Proof.
  intros Hq Hstale Hblock Hindex Hlive Hpartial Hfuel.
  revert r fuel Hq Hstale Hlive Hfuel.
  induction skipped as [| ev skipped IH]; intros r fuel Hq Hstale Hlive Hfuel.
  - destruct fuel as [| fuel]; [inversion Hfuel |].
    destruct (reconcileActiveAccounts_pass_live (S fuel) r w _ _ _ _ _
                Hq Hblock Hindex Hlive Hpartial) as (account & Haccount & Hpass).
    exists account. split; [exact Haccount |]. cbv zeta in *.
    cbn [reconcileActiveAccounts]. unfold bind. rewrite Hpass. reflexivity.
  - destruct fuel as [| fuel]; [inversion Hfuel |].
    apply Forall_cons in Hstale as [Hhead Hrest].
    rewrite (reconcileActiveAccounts_step_stale fuel r w _ _ Hq Hhead).
    destruct (IH (set_changeQueue (skipped ++ balanceChange :: rest)%list r) fuel
                eq_refl Hrest Hlive) as (account & Haccount & Hrun).
    + simpl in Hfuel. lia.
    + exists account. split; [exact Haccount |]. exact Hrun.
Qed.

Lemma set_changeQueue_id r : set_changeQueue (changeQueue r) r = r.
Proof. destruct r; reflexivity. Qed.

Lemma set_inactiveQueue_id r : set_inactiveQueue (inactiveQueue r) r = r.
Proof. destruct r; reflexivity. Qed.

Lemma reconcileActiveAccounts_pass_cases fuel r w :
  (exists balanceChange rest,
     changeQueue r = balanceChange :: rest /\
     reconcileActiveAccounts_pass fuel r w = (Ok tt, set_changeQueue rest r, w, [])) \/
  (exists e w1 t,
     reconcileActiveAccounts_pass fuel r w =
       (Throw e, set_changeQueue (shift (changeQueue r)).2 r, w1, t) /\
     (t = [] \/ exists net a partial, t = [EvFetch net a partial])).
Proof.
  destruct (changeQueue r) as [| balanceChange rest] eqn:Hq.
  { right. exists TypeError, w, []. rewrite (shift_empty_pass fuel r w Hq). auto. }
  destruct (stale (highWaterMark r) balanceChange) eqn:Hstale.
  { left. exists balanceChange, rest.
    rewrite (reconcileActiveAccounts_pass_stale fuel r w _ _ Hq Hstale). auto. }
  right. cbn [shift snd]. unfold stale in Hstale.
  unfold reconcileActiveAccounts_pass.
  unfold bind at 1. unfold this at 1. rewrite Hq. cbn [shift].
  unfold bind at 1. unfold modify at 1.
  unfold bind at 1. unfold prop at 1.
  destruct (get_prop balanceChange "block") as [e | block] eqn:Hblock;
    [simpl; eauto 10 |].
  unfold lift at 1, ret at 1.
  unfold bind at 1. unfold prop at 1.
  destruct (get_prop block "index") as [e | index] eqn:Hindex; [simpl; eauto 10 |].
  unfold lift at 1, ret at 1.
  unfold bind at 1. unfold this at 1.
  change (highWaterMark (set_changeQueue rest r)) with (highWaterMark r).
  rewrite Hstale.
  destruct (get_prop_defined _ _ "account_identifier" _ Hblock) as [account Haccount].
  destruct (get_prop_defined _ _ "currency" _ Hblock) as [currency Hcurrency].
  unfold bind at 1. unfold prop at 1. rewrite Haccount. unfold lift at 1, ret at 1.
  unfold bind at 1. unfold prop at 1. rewrite Hcurrency. unfold lift at 1, ret at 1.
  unfold bind at 1. unfold prop at 1. rewrite Hblock. unfold lift at 1, ret at 1.
  unfold bind at 1.
  destruct (constructPartialBlockIdentifier block) as [e | partial]; [simpl; eauto 10 |].
  unfold lift at 1, ret at 1.
  unfold bind at 1.
  rewrite (bestBalance_run account currency partial (set_changeQueue rest r) w).
  cbv zeta. simpl. eauto 12.
Qed.

(** X11.  The active loop never invokes a handler callback and never ends
    normally: whatever the queue, the collaborators and the fuel, it makes
    at most one fetch, and when it stops it stops on an error.  It only
    consumes events from the front of the change queue and writes nothing
    else of the reconciler. *)
Theorem active_loop_never_reports fuel r w :
  let run := reconcileActiveAccounts fuel r w in
  (outcome_of run = OutOfFuel \/ exists e, outcome_of run = Throw e) /\
  (exists q, q `suffix_of` changeQueue r /\ reconciler_of run = set_changeQueue q r) /\
  (trace_of run = [] \/ exists net a partial, trace_of run = [EvFetch net a partial]).
Proof.
  cbv zeta. revert r w. induction fuel as [| fuel IH]; intros r w.
  - simpl. split_and!; [auto | | auto].
    exists (changeQueue r). split; [done |]. symmetry. apply set_changeQueue_id.
  - cbn [reconcileActiveAccounts]. unfold bind.
    destruct (reconcileActiveAccounts_pass_cases (S fuel) r w)
      as [(ev & rest & Hq & ->) | (e & w1 & t & -> & Ht)].
    + specialize (IH (set_changeQueue rest r) w).
      destruct (reconcileActiveAccounts fuel (set_changeQueue rest r) w)
        as [[[o r1] w1] t1].
      unfold outcome_of, reconciler_of, trace_of in *. simpl in *.
      destruct IH as (Ho & (q & Hsuffix & ->) & Ht). split_and!; [exact Ho | | exact Ht].
      exists q. split; [| reflexivity]. rewrite Hq. by apply suffix_cons_r.
    + unfold outcome_of, reconciler_of, trace_of. simpl.
      split_and!; [eauto | | exact Ht].
      exists (shift (changeQueue r)).2. split; [| reflexivity].
      destruct (changeQueue r); simpl; [done |]. by apply suffix_cons_r.
Qed.

Lemma inactive_front_ready_frame head r w :
  (exists e, inactive_front_ready head r w = (Throw e, r, w, [])) \/
  inactive_front_ready head r w = (Ok false, r, w, []) \/
  (inactive_front_ready head r w = (Ok true, r, w, []) /\ inactiveQueue r <> []).
Proof.
  unfold inactive_front_ready, bind, this, prop, lift, throw, ret.
  destruct (inactiveQueue r) as [| front rest]; [auto |].
  assert (front :: rest <> []) as Hq by discriminate. revert Hq.
  generalize (front :: rest) as q. intros q Hq.
  destruct (get_prop front "last_check") as [e | last_check]; simpl; [eauto |].
  destruct (loose_eq_null last_check); simpl; [auto |].
  destruct (get_prop last_check "index") as [e | index]; simpl; [eauto |].
  destruct (get_prop head "index") as [e | headIndex]; simpl; [eauto |].
  destruct (js_lt (js_add index (requiredDepthInactive r)) headIndex); auto.
Qed.

Lemma reconcileInactiveAccounts_pass_cases fuel r w :
  (exists w1 t,
     reconcileInactiveAccounts_pass fuel r w = (Ok tt, r, w1, t) /\
     (t = [EvSleep RECONCILIATION_INACTIVE_SLEEP_MS] \/
      t = [EvLog; EvSleep RECONCILIATION_INACTIVE_SLEEP_MS])) \/
  (exists e w1 t q,
     reconcileInactiveAccounts_pass fuel r w = (Throw e, set_inactiveQueue q r, w1, t) /\
     q `suffix_of` inactiveQueue r /\
     (t = [] \/ exists net a partial, t = [EvFetch net a partial])).
Proof.
  destruct (reconcileInactiveAccounts_pass fuel r w) as [[[o r'] w'] t'] eqn:Hrun.
  revert Hrun. unfold reconcileInactiveAccounts_pass.
  unfold bind at 1. unfold this at 1. unfold bind at 1. unfold invoke at 1.
  destruct (currentBlock (helper r) w) as [call w1].
  destruct (no_await call) as [e | head].
  { intros [= <- <- <- <-]. left. exists w1. eexists. split; [reflexivity | auto]. }
  unfold bind at 1.
  destruct (inactive_front_ready_frame head r w1) as [[e ->] | [-> | [-> Hq]]].
  - intros [= <- <- <- <-]. right. exists e, w1, [], (inactiveQueue r).
    rewrite set_inactiveQueue_id. split_and!; [reflexivity | done | auto].
  - intros [= <- <- <- <-]. left. exists w1. eexists. split; [reflexivity | auto].
  - destruct (inactiveQueue r) as [| randomAccount rest] eqn:Hqueue; [done |].
    assert (rest `suffix_of` randomAccount :: rest) as Hsuffix by by apply suffix_cons_r.
    unfold bind at 1. unfold this at 1. rewrite Hqueue. cbn [shift].
    unfold bind at 1. unfold modify at 1.
    unfold bind at 1. unfold prop at 1.
    destruct (get_prop randomAccount "entry") as [e | entry];
      [intros [= <- <- <- <-]; right; eauto 12 |].
    unfold lift at 1, ret at 1.
    unfold bind at 1. unfold prop at 1.
    destruct (get_prop entry "account_identifier") as [e | account] eqn:Haccount;
      [intros [= <- <- <- <-]; right; eauto 12 |].
    destruct (get_prop_defined _ _ "currency" _ Haccount) as [currency Hcurrency].
    unfold lift at 1, ret at 1.
    unfold bind at 1. unfold prop at 1. rewrite Hcurrency. unfold lift at 1, ret at 1.
    unfold bind at 1.
    destruct (constructPartialBlockIdentifier head) as [e | partial];
      [intros [= <- <- <- <-]; right; eauto 12 |].
    unfold lift at 1, ret at 1.
    unfold bind at 1.
    rewrite (bestBalance_run account currency partial (set_inactiveQueue rest r) w1).
    cbv zeta. intros [= <- <- <- <-]. right. eauto 15.
Qed.

(** X12.  The inactive loop never invokes a handler callback either, and it
    never puts an entry back: a pass sleeps with the reconciler untouched, or
    throws, having popped at most the front entry and made at most one
    fetch.  Whatever the fuel, the inactive queue afterwards is a suffix of
    the queue before, and nothing else of the reconciler has changed. *)
Theorem inactive_loop_never_reports fuel r w :
  let run := reconcileInactiveAccounts fuel r w in
  (outcome_of run = OutOfFuel \/ exists e, outcome_of run = Throw e) /\
  (exists q, q `suffix_of` inactiveQueue r /\ reconciler_of run = set_inactiveQueue q r) /\
  Forall (fun e => is_callback e = false) (trace_of run).
Proof.
  cbv zeta. revert w. induction fuel as [| fuel IH]; intros w.
  - simpl. split_and!; [auto | | constructor].
    exists (inactiveQueue r). split; [done |]. symmetry. apply set_inactiveQueue_id.
  - cbn [reconcileInactiveAccounts]. unfold bind.
    destruct (reconcileInactiveAccounts_pass_cases (S fuel) r w)
      as [(w1 & t & -> & Ht) | (e & w1 & t & q & -> & Hsuffix & Ht)].
    + specialize (IH w1).
      destruct (reconcileInactiveAccounts fuel r w1) as [[[o r1] w2] t1].
      unfold outcome_of, reconciler_of, trace_of in *. simpl in *.
      destruct IH as (Ho & Hq & Hcalls). split_and!; [exact Ho | exact Hq |].
      apply Forall_app. split; [| exact Hcalls].
      destruct Ht as [-> | ->]; repeat constructor.
    + unfold outcome_of, reconciler_of, trace_of. simpl.
      split_and!; [eauto | eauto |].
      destruct Ht as [-> | (net & a & partial & ->)]; repeat constructor.
Qed.


(** X14.  The inactive rotation does not sustain itself: when the front
    entry is one the class pushed ([{ entry }] or [{ entry, lastCheck }]) and
    [currentBlock] does not throw synchronously, the pass pops the entry,
    whatever its last check and the head, and then throws; the entry is not
    appended again, and the rest of the queue is kept. *)
Theorem inactive_pass_loses_the_popped_entry fuel front rest r w call w1 head :
  inactiveQueue r = front :: rest ->
  pushed_entry front ->
  currentBlock (helper r) w = (call, w1) ->
  no_await call = inr head ->
  exists e,
    outcome_of (reconcileInactiveAccounts_pass fuel r w) = Throw e /\
    reconciler_of (reconcileInactiveAccounts_pass fuel r w) = set_inactiveQueue rest r.
Proof.
  intros Hq Hpushed Hcall Hhead.
  assert (get_prop front "last_check" = inr VUndef) as Hlc.
  { destruct Hpushed as [[s ->] | (ac & block & ->)]; reflexivity. }
  destruct (reconcileInactiveAccounts_pass_pops fuel front rest r w call w1 head
              Hq Hlc Hcall Hhead) as [Hpopped _].
  destruct (reconcileInactiveAccounts_pass_cases fuel r w)
    as [(w2 & t & Hrun & _) | (e & w2 & t & q & Hrun & _ & _)];
    rewrite Hrun in *; unfold reconciler_of, outcome_of in *; simpl in *.
  - rewrite Hq in Hpopped. apply (f_equal length) in Hpopped. simpl in Hpopped. lia.
  - subst q. eauto.
Qed.

(** X15.  Every entry of the inactive queue is one the class pushed: this
    holds after construction and is kept by the bookkeeping, by every
    reconciliation and by every pass of the inactive loop.  In such a state a
    non-empty queue always has a ready front: the required depth is never
    consulted. *)
Theorem inactive_queue_holds_pushed_entries r :
  (forall args : Args W, Forall pushed_entry (inactiveQueue (constructor args))) /\
  (Forall pushed_entry (inactiveQueue r) ->
   (forall call w, Forall pushed_entry (inactiveQueue (bookkeeping call r w))) /\
   (forall fuel a c amount block isInactive w,
      Forall pushed_entry
        (inactiveQueue
           (reconciler_of (accountReconciliation fuel a c amount block isInactive r w)))) /\
   (forall fuel w,
      Forall pushed_entry
        (inactiveQueue (reconciler_of (reconcileInactiveAccounts_pass fuel r w)))) /\
   (forall head w, inactiveQueue r <> [] ->
      inactive_front_ready head r w = (Ok true, r, w, []))).
Proof.
  assert (Hbook : forall r', Forall pushed_entry (inactiveQueue r') ->
            forall call w, Forall pushed_entry (inactiveQueue (bookkeeping call r' w))).
  { intros r' Hinv [[isInactive ac] block] w.
    destruct isInactive; [rewrite bookkeeping_inactive | rewrite bookkeeping_active].
    - simpl. apply Forall_app. split; [exact Hinv |].
      constructor; [right; eauto | constructor].
    - destruct (ContainsAccountCurrency (seenAccounts r') ac); [exact Hinv |].
      simpl. apply Forall_app. split; [exact Hinv |].
      constructor; [right; eauto | constructor]. }
  split.
  - intros args. destruct (constructor_seen_queue args) as [-> _].
    apply Forall_forall. intros e Hin. apply list_elem_of_fmap in Hin as (s & -> & _).
    left. eauto.
  - intros Hinv. split_and!.
    + apply Hbook, Hinv.
    + intros [| fuel] a c amount block isInactive w; [exact Hinv |].
      destruct (accountReconciliation_bookkeeping fuel a c amount block isInactive r w)
        as [-> | ->]; [exact Hinv | apply Hbook, Hinv].
    + intros fuel w.
      destruct (reconcileInactiveAccounts_pass_cases fuel r w)
        as [(w2 & t & -> & _) | (e & w2 & t & q & -> & Hsuffix & _)];
        unfold reconciler_of; simpl; [exact Hinv |].
      destruct Hsuffix as [skipped Hq]. rewrite Hq in Hinv.
      apply Forall_app in Hinv as [_ Hinv]. exact Hinv.
    + intros head w Hne. destruct (inactiveQueue r) as [| front rest] eqn:Hq; [done |].
      apply Forall_cons in Hinv as [Hfront _].
      apply (inactive_front_ready_unread head front rest r w Hq).
      destruct Hfront as [[s ->] | (ac & block & ->)]; reflexivity.
Qed.

End Loops.

Section IntakeProperties.

Context {L : Lang} {U : Utils} {W : Type}.

Implicit Types (r : RosettaReconciler W) (w : W).

Lemma queueChanges_interesting_matched accounts changes r w :
  Forall (fun account => skipAccount account changes = true) accounts ->
  queueChanges_interesting accounts changes r w = (Ok changes, r, w, []).
Proof.
  induction 1 as [| account rest Hskip _ IH]; [reflexivity |].
  cbn [queueChanges_interesting]. rewrite Hskip. exact IH.
Qed.

Lemma queueChanges_interesting_gap matched account rest changes r w :
  Forall (fun account => skipAccount account changes = true) matched ->
  skipAccount account changes = false ->
  queueChanges_interesting (matched ++ account :: rest) changes r w =
    (Throw (match get_prop account "account" with
            | inl e => e
            | inr _ => ReferenceError
            end), r, w, []).
Proof.
  intros Hmatched Hgap. induction Hmatched as [| first matched Hskip _ IH].
  - cbn [app queueChanges_interesting]. rewrite Hgap.
    unfold bind, prop, lift, unbound_block, throw, ret.
    destruct account; reflexivity.
  - cbn [app queueChanges_interesting]. rewrite Hskip. exact IH.
Qed.

(** The loop over the watch list either leaves the batch as it is or throws;
    it never extends it. *)
Lemma queueChanges_interesting_frame accounts changes r w :
  queueChanges_interesting accounts changes r w = (Ok changes, r, w, []) \/
  exists e, queueChanges_interesting accounts changes r w = (Throw e, r, w, []).
Proof.
  induction accounts as [| account rest IH]; [left; reflexivity |].
  cbn [queueChanges_interesting].
  destruct (skipAccount account changes); [exact IH |].
  right. unfold bind, prop, lift, unbound_block, throw, ret.
  destruct account; simpl; eauto.
Qed.

Lemma queueChanges_push_run logs changes r w :
  queueChanges_push logs changes r w =
    (Ok tt, set_changeQueue (changeQueue r ++ changes)%list r, w,
     if logs then replicate (length changes) EvLog else []).
Proof.
  revert r. induction changes as [| change rest IH]; intros r.
  - simpl. unfold ret. rewrite app_nil_r, set_changeQueue_id.
    destruct logs; reflexivity.
  - cbn [queueChanges_push]. unfold bind at 1. unfold modify at 1.
    unfold bind at 1.
    destruct logs; unfold Logger_info, emit, ret; rewrite IH; simpl;
      rewrite <- app_assoc; reflexivity.
Qed.

(** X16.  With [lookupBalanceByBlock] truthy and every watched account
    already present in the batch (in particular with an empty watch list),
    [queueChanges] appends the batch to the change queue in order, behind
    what is queued, and returns [undefined]; it logs nothing, leaves the
    caller's array as it is and writes nothing else. *)
Theorem queueChanges_appends_in_order blockIdentifier changes r w :
  Forall (fun account => skipAccount account changes = true) (interestingAccounts r) ->
  truthy (lookupBalanceByBlock r) = true ->
  queueChanges blockIdentifier changes r w =
    (Ok (VUndef, changes), set_changeQueue (changeQueue r ++ changes)%list r, w, []).
Proof.
  intros Hmatched Hlookup. unfold queueChanges.
  unfold bind at 1. unfold this at 1. unfold bind at 1.
  rewrite (queueChanges_interesting_matched _ _ r w Hmatched).
  unfold bind at 1. unfold this at 1. rewrite Hlookup. cbn [negb].
  unfold bind at 1. rewrite queueChanges_push_run. reflexivity.
Qed.

(** X17.  A watched account that has no change in the batch makes
    [queueChanges] throw before anything is queued: the synthesized entry
    reads the unbound identifier [block] (ReferenceError), or the
    account's properties when the entry is [undefined] or [null]
    (TypeError).  This holds for either setting of [lookupBalanceByBlock]. *)
Theorem queueChanges_throws_on_unmatched_watched_account
  blockIdentifier changes r w matched account rest :
  interestingAccounts r = (matched ++ account :: rest)%list ->
  Forall (fun a => skipAccount a changes = true) matched ->
  skipAccount account changes = false ->
  queueChanges blockIdentifier changes r w =
    (Throw (match get_prop account "account" with
            | inl e => e
            | inr _ => ReferenceError
            end), r, w, []).
Proof.
  intros Hwatch Hmatched Hgap. unfold queueChanges.
  unfold bind at 1. unfold this at 1. unfold bind at 1. rewrite Hwatch.
  rewrite (queueChanges_interesting_gap _ _ _ _ r w Hmatched Hgap). reflexivity.
Qed.

(** X18.  With [lookupBalanceByBlock] falsy and the watch list satisfied, a
    batch whose block index is below [highWaterMark] is dropped and
    [queueChanges] returns [null]; any other batch is appended in order,
    with one log line per change. *)
Theorem queueChanges_backlog_gate blockIdentifier changes r w index :
  Forall (fun account => skipAccount account changes = true) (interestingAccounts r) ->
  truthy (lookupBalanceByBlock r) = false ->
  get_prop blockIdentifier "index" = inr index ->
  queueChanges blockIdentifier changes r w =
    if js_lt index (highWaterMark r) then (Ok (VNull, changes), r, w, [])
    else (Ok (VUndef, changes), set_changeQueue (changeQueue r ++ changes)%list r, w,
          replicate (length changes) EvLog).
Proof.
  intros Hmatched Hlookup Hindex. unfold queueChanges.
  unfold bind at 1. unfold this at 1. unfold bind at 1.
  rewrite (queueChanges_interesting_matched _ _ r w Hmatched).
  unfold bind at 1. unfold this at 1. rewrite Hlookup. cbn [negb].
  unfold bind at 1. unfold prop at 1. rewrite Hindex. unfold lift at 1, ret at 1.
  destruct (js_lt index (highWaterMark r)); [reflexivity |].
  unfold bind at 1. rewrite queueChanges_push_run. simpl.
  rewrite app_nil_r. reflexivity.
Qed.

(** X19.  On a reconciler constructed with [lookupBalanceByBlock: false]
    the gate of [queueChanges] is never closed to a batch whose block index
    is a non-negative number: [highWaterMark] holds the flag itself, and no
    such index is below [false]. *)
Theorem constructed_gate_never_drops (args : Args W) blockIdentifier changes w n :
  arg_lookupBalanceByBlock args = Some (VBool false) ->
  Forall (fun account => skipAccount account changes = true)
    (default [] (arg_interestingAccounts args)) ->
  get_prop blockIdentifier "index" = inr (VNum n) ->
  0 <= n ->
  outcome_of (queueChanges blockIdentifier changes (constructor args) w)
    = Ok (VUndef, changes) /\
  changeQueue (reconciler_of (queueChanges blockIdentifier changes (constructor args) w))
    = changes.
Proof.
  intros Hflag Hmatched Hindex Hn.
  destruct (constructor_highWaterMark args) as [_ Hmark].
  assert (lookupBalanceByBlock (constructor args) = VBool false) as Hlookup.
  { destruct (constructor_highWaterMark args) as [<- _]. rewrite Hmark, Hflag.
    reflexivity. }
  assert (interestingAccounts (constructor args) = default [] (arg_interestingAccounts args))
    as Hwatch.
  { unfold constructor.
    destruct (handleSeenAccounts [] (cfg_withSeenAccounts (assign defaults args))).
    simpl. destruct (arg_interestingAccounts args); reflexivity. }
  assert (js_lt (VNum n) (highWaterMark (constructor args)) = false) as Hopen.
  { rewrite Hmark, Hflag. unfold js_lt. simpl. apply Z.ltb_ge. exact Hn. }
  rewrite <- Hwatch in Hmatched.
  assert (queueChanges blockIdentifier changes (constructor args) w =
            (Ok (VUndef, changes),
             set_changeQueue (changeQueue (constructor args) ++ changes)%list
               (constructor args), w, replicate (length changes) EvLog)) as ->.
  { unfold queueChanges.
    unfold bind at 1. unfold this at 1. unfold bind at 1.
    rewrite (queueChanges_interesting_matched _ _ (constructor args) w Hmatched).
    unfold bind at 1. unfold this at 1. rewrite Hlookup. cbn [truthy negb].
    unfold bind at 1. unfold prop at 1. rewrite Hindex. unfold lift at 1, ret at 1.
    rewrite Hopen.
    unfold bind at 1. rewrite queueChanges_push_run. simpl.
    rewrite app_nil_r. reflexivity. }
  split; [reflexivity |]. unfold reconciler_of. simpl.
  rewrite constructor_changeQueue. reflexivity.
Qed.

Lemma queueChanges_keeps_highWaterMark blockIdentifier changes r w :
  highWaterMark (reconciler_of (queueChanges blockIdentifier changes r w))
  = highWaterMark r.
Proof.
  unfold queueChanges.
  unfold bind at 1. unfold this at 1. unfold bind at 1.
  destruct (queueChanges_interesting_frame (interestingAccounts r) changes r w)
    as [-> | [e ->]]; [| reflexivity].
  unfold bind at 1. unfold this at 1.
  destruct (truthy (lookupBalanceByBlock r)); cbn [negb].
  - unfold bind at 1. rewrite queueChanges_push_run. reflexivity.
  - unfold bind at 1. unfold prop at 1.
    destruct (get_prop blockIdentifier "index") as [e | index]; [reflexivity |].
    unfold lift at 1, ret at 1.
    destruct (js_lt index (highWaterMark r)); [reflexivity |].
    unfold bind at 1. rewrite queueChanges_push_run. reflexivity.
Qed.

Lemma reconcileActiveAccounts_keeps_highWaterMark fuel r w :
  highWaterMark (reconciler_of (reconcileActiveAccounts fuel r w)) = highWaterMark r.
Proof.
  revert r w. induction fuel as [| fuel IH]; intros r w; [reflexivity |].
  cbn [reconcileActiveAccounts]. unfold bind.
  destruct (reconcileActiveAccounts_pass_cases (S fuel) r w)
    as [(ev & rest & _ & ->) | (e & w1 & t & -> & _)]; [| reflexivity].
  specialize (IH (set_changeQueue rest r) w).
  destruct (reconcileActiveAccounts fuel (set_changeQueue rest r) w) as [[[o r1] w1] t1].
  exact IH.
Qed.

Lemma reconcileInactiveAccounts_keeps_highWaterMark fuel r w :
  highWaterMark (reconciler_of (reconcileInactiveAccounts fuel r w)) = highWaterMark r.
Proof.
  revert w. induction fuel as [| fuel IH]; intros w; [reflexivity |].
  cbn [reconcileInactiveAccounts]. unfold bind.
  destruct (reconcileInactiveAccounts_pass_cases (S fuel) r w)
    as [(w1 & t & -> & _) | (e & w1 & t & q & -> & _ & _)]; [| reflexivity].
  specialize (IH w1).
  destruct (reconcileInactiveAccounts fuel r w1) as [[[o r1] w2] t1].
  exact IH.
Qed.

(** X20.  After construction no method writes [highWaterMark]: a
    reconciliation, [queueChanges] and both loops all leave it at the value
    the constructor gave it, so the throttle that the field stands for never
    moves. *)
Theorem highWaterMark_is_never_written r w :
  (forall fuel a c amount block isInactive,
     highWaterMark
       (reconciler_of (accountReconciliation fuel a c amount block isInactive r w))
     = highWaterMark r) /\
  (forall blockIdentifier changes,
     highWaterMark (reconciler_of (queueChanges blockIdentifier changes r w))
     = highWaterMark r) /\
  (forall fuel,
     highWaterMark (reconciler_of (reconcileActiveAccounts fuel r w)) = highWaterMark r) /\
  (forall fuel,
     highWaterMark (reconciler_of (reconcileInactiveAccounts fuel r w)) = highWaterMark r).
Proof.
  split_and!.
  - intros. apply accountReconciliation_keeps_highWaterMark.
  - intros. apply queueChanges_keeps_highWaterMark.
  - intros. apply reconcileActiveAccounts_keeps_highWaterMark.
  - intros. apply reconcileInactiveAccounts_keeps_highWaterMark.
Qed.

(** ** extractAmount *)

(** X21.  [extractAmount] returns the first amount of the array whose
    currency has the hash of the requested currency; the amounts behind it
    are not looked at. *)
Theorem extractAmount_returns_first_match before b after currency bc :
  Forall (fun x => exists xc, get_prop x "currency" = inr xc /\
                              Hash xc <> Hash currency) before ->
  get_prop b "currency" = inr bc ->
  Hash bc = Hash currency ->
  extractAmount (before ++ b :: after) currency = inr b.
Proof.
  intros Hbefore Hbc Hhash. induction Hbefore as [| x before (xc & Hxc & Hne) _ IH].
  - cbn [app extractAmount]. rewrite Hbc, Hhash, String.eqb_refl. reflexivity.
  - cbn [app extractAmount]. rewrite Hxc.
    apply String.eqb_neq in Hne. rewrite Hne. exact IH.
Qed.

(** X22.  Whatever [extractAmount] returns is an element of the array whose
    currency hashes like the requested one; and when no element has such a
    currency, the empty array included, it throws its [Error]. *)
Theorem extractAmount_sound_and_fails_without_match amounts currency :
  (forall b, extractAmount amounts currency = inr b ->
     b ∈ amounts /\
     exists bc, get_prop b "currency" = inr bc /\ Hash bc = Hash currency) /\
  (Forall (fun x => exists xc, get_prop x "currency" = inr xc /\
                               Hash xc <> Hash currency) amounts ->
   extractAmount amounts currency = inl could_not_extract).
Proof.
  split.
  - induction amounts as [| x amounts IH]; intros b; [discriminate |].
    cbn [extractAmount].
    destruct (get_prop x "currency") as [e | xc] eqn:Hxc; [discriminate |].
    destruct (String.eqb_spec (Hash xc) (Hash currency)) as [Heq | Hne]; simpl.
    + intros [= <-]. split; [apply list_elem_of_here | eauto].
    + intros Hb. destruct (IH b Hb) as [Hin Hmatch].
      split; [by apply list_elem_of_further | exact Hmatch].
  - induction 1 as [| x amounts (xc & Hxc & Hne) _ IH]; [reflexivity |].
    cbn [extractAmount]. rewrite Hxc.
    apply String.eqb_neq in Hne. rewrite Hne. exact IH.
Qed.

(** ** The nested class AccountCurrency *)

(** X23.  The two ways of constructing an [AccountCurrency] agree: an
    options object with a truthy [accountIdentifier], and the two positional
    arguments (the first of which must not itself carry a truthy
    [accountIdentifier]), give the same [{ account, currency }]. *)
Theorem new_AccountCurrency_forms_agree fields accountIdentifier currency :
  get_prop (VObj fields) "accountIdentifier" = inr accountIdentifier ->
  get_prop (VObj fields) "currency" = inr currency ->
  truthy accountIdentifier = true ->
  (exists inner, get_prop accountIdentifier "accountIdentifier" = inr inner /\
                 truthy inner = false) ->
  new_AccountCurrency [VObj fields] =
    inr (VObj [("account", accountIdentifier); ("currency", currency)]) /\
  new_AccountCurrency [accountIdentifier; currency] = new_AccountCurrency [VObj fields].
Proof.
  intros Hai Hcur Htruthy (inner & Hinner & Hfalsy).
  assert (new_AccountCurrency [VObj fields] =
            inr (VObj [("account", accountIdentifier); ("currency", currency)])) as Hopts.
  { unfold new_AccountCurrency. cbn [nth typeof_object].
    rewrite Hai, Htruthy, Hcur. reflexivity. }
  split; [exact Hopts |]. rewrite Hopts.
  unfold new_AccountCurrency. cbn [nth].
  destruct (typeof_object accountIdentifier); [| reflexivity].
  rewrite Hinner, Hfalsy. reflexivity.
Qed.

(** X24.  The edges of the constructor.  [null] as first argument throws a
    TypeError (its type is ['object'] and its [accountIdentifier] is read).
    An options object whose [accountIdentifier] is missing or falsy is taken
    for a positional account: [account] becomes the options object itself
    and [currency] the second argument.  Without arguments both fields are
    [undefined]. *)
Theorem new_AccountCurrency_edges fields falsy rest :
  get_prop (VObj fields) "accountIdentifier" = inr falsy ->
  truthy falsy = false ->
  new_AccountCurrency (VNull :: rest) = inl TypeError /\
  new_AccountCurrency (VObj fields :: rest) =
    inr (VObj [("account", VObj fields); ("currency", nth 0 rest VUndef)]) /\
  new_AccountCurrency [] = inr (VObj [("account", VUndef); ("currency", VUndef)]).
Proof.
  intros Hai Hfalsy. split_and!; [reflexivity | | reflexivity].
  unfold new_AccountCurrency. cbn [nth typeof_object]. rewrite Hai, Hfalsy.
  destruct rest; reflexivity.
Qed.

End IntakeProperties.

Section Seeding.

Context {L : Lang} {U : Utils} {W : Type}.

Implicit Types (r : RosettaReconciler W) (w : W).

(** A reconciliation that gets past line 265 has made the bookkeeping call,
    once; one that throws before it has written nothing. *)
Lemma accountReconciliation_effect fuel a c amount block isInactive r w :
  let run := accountReconciliation (S fuel) a c amount block isInactive r w in
  reconciler_of run =
    if reaches_bookkeeping run
    then bookkeeping (isInactive, AccountCurrency a c, block) r w
    else r.
Proof.
  cbv zeta. rewrite accountReconciliation_unfold.
  destruct (compareBalance_cases a c amount block r w) as (o & w1 & Hcmp & Hfuel).
  assert (Hreport : forall locals,
    let report := accountReconciliation_report a c amount block isInactive locals r w1 in
    let run :=
      match report with
      | (Ok (Return v), r1, w2, t1) => (Ok v, r1, w2, t1)
      | (Ok Continue, r1, w2, t1) =>
          match accountReconciliation fuel a c amount block isInactive r1 w2 with
          | (o, r2, w3, t2) => (o, r2, w3, (t1 ++ t2)%list)
          end
      | (Throw e, r1, w2, t1) => (Throw e, r1, w2, t1)
      | (OutOfFuel, r1, w2, t1) => (OutOfFuel, r1, w2, t1)
      end in
    reconciler_of run =
      if reaches_bookkeeping run
      then bookkeeping (isInactive, AccountCurrency a c, block) r w
      else r).
  { intros locals. cbv zeta.
    pose proof (accountReconciliation_report_table a c amount block isInactive
                  locals r w w1) as Htable. cbv zeta in Htable.
    destruct (accountReconciliation_report a c amount block isInactive locals r w1)
      as [[[o' r1] w2] t1].
    unfold outcome_of, reconciler_of, trace_of, reaches_bookkeeping in *. simpl in *.
    destruct Htable as [(e & -> & -> & ->) | ([(v & ->) | (e & ->)] & -> & [-> | ->])];
      reflexivity. }
  destruct o as [cmp | e |]; [| | done].
  - rewrite (accountReconciliation_pass_compared _ _ _ _ _ _ _ _ _ Hcmp).
    apply Hreport.
  - rewrite (accountReconciliation_pass_thrown _ _ _ _ _ _ _ _ _ Hcmp).
    rewrite accountReconciliation_catch_run.
    destruct e as [type | | | v]; try reflexivity.
    destruct (String.eqb type RECONCILIATION_ERROR_HEAD_BEHIND_LIVE).
    + destruct (get_prop block "index"); reflexivity.
    + apply Hreport.
Qed.

(** Which reconciliations get past the bookkeeping call: those whose
    comparison completes, or fails with a [ReconcilerError] other than
    HeadBehindLive, and whose failure callback, if it is invoked at all,
    reports no error. *)
Lemma accountReconciliation_reaches fuel a c amount block isInactive r w :
  let run := accountReconciliation (S fuel) a c amount block isInactive r w in
  let kind := reconciliationType isInactive in
  reaches_bookkeeping run =
    match compareBalance a c amount block r w with
    | (Ok cmp, _, w1, _) =>
        negb (loose_neq_zero_string (difference cmp) &&
              reports_error
                (reconciliationFailed (handler r) kind a c (cachedBalance cmp)
                   amount block w1).1)
    | (Throw (ReconcilerError type), _, w1, _) =>
        negb (String.eqb type RECONCILIATION_ERROR_HEAD_BEHIND_LIVE) &&
        negb (reports_error
                (reconciliationFailed (handler r) kind a c VUndef amount block w1).1)
    | _ => false
    end.
Proof.
  cbv zeta. rewrite accountReconciliation_unfold.
  destruct (compareBalance_cases a c amount block r w) as (o & w1 & Hcmp & Hfuel).
  rewrite Hcmp.
  assert (Hreport : forall locals,
    let report := accountReconciliation_report a c amount block isInactive locals r w1 in
    reaches_bookkeeping
      match report with
      | (Ok (Return v), r1, w2, t1) => (Ok v, r1, w2, t1)
      | (Ok Continue, r1, w2, t1) =>
          match accountReconciliation fuel a c amount block isInactive r1 w2 with
          | (o, r2, w3, t2) => (o, r2, w3, (t1 ++ t2)%list)
          end
      | (Throw e, r1, w2, t1) => (Throw e, r1, w2, t1)
      | (OutOfFuel, r1, w2, t1) => (OutOfFuel, r1, w2, t1)
      end =
    negb (loose_neq_zero_string (difference locals) &&
          reports_error
            (reconciliationFailed (handler r) (reconciliationType isInactive) a c
               (cachedBalance locals) amount block w1).1)).
  { intros locals. cbv zeta. rewrite accountReconciliation_report_run. cbv zeta.
    destruct (loose_neq_zero_string (difference locals)); cbn [andb].
    - destruct (reconciliationFailed (handler r) (reconciliationType isInactive) a c
                  (cachedBalance locals) amount block w1) as [[e | error] w2];
        simpl; [reflexivity |].
      destruct (truthy error); simpl; [reflexivity |].
      destruct (reconciliationSucceeded (handler r) (reconciliationType isInactive)
                  a c amount block w2) as [[e | v] w3]; reflexivity.
    - destruct (reconciliationSucceeded (handler r) (reconciliationType isInactive)
                  a c amount block w1) as [[e | v] w3]; reflexivity. }
  destruct o as [cmp | e |]; [| | done].
  - rewrite (accountReconciliation_pass_compared _ _ _ _ _ _ _ _ _ Hcmp).
    apply Hreport.
  - rewrite (accountReconciliation_pass_thrown _ _ _ _ _ _ _ _ _ Hcmp).
    rewrite accountReconciliation_catch_run.
    destruct e as [type | | | v]; try reflexivity.
    destruct (String.eqb type RECONCILIATION_ERROR_HEAD_BEHIND_LIVE).
    + destruct (get_prop block "index"); reflexivity.
    + rewrite (Hreport unassigned). reflexivity.
Qed.

Lemma reconcile_call_effect fuel call r w :
  reconciler_of (reconcile_call (S fuel) call r w) =
    if reaches_bookkeeping (reconcile_call (S fuel) call r w)
    then bookkeeping
           (inactive_run call,
            AccountCurrency (claimed_account call) (claimed_currency call),
            claimed_block call) r w
    else r.
Proof. apply accountReconciliation_effect. Qed.

Lemma active_seedings_seen fuel ac calls r w :
  ContainsAccountCurrency (seenAccounts r) ac = true ->
  active_seedings (S fuel) (Hash ac) calls r w = 0%nat.
Proof.
  revert r w. induction calls as [| call rest IH]; intros r w Hseen; [reflexivity |].
  cbn [active_seedings]. cbv zeta. rewrite (reconcile_call_effect fuel call r w).
  set (ac' := AccountCurrency (claimed_account call) (claimed_currency call)).
  destruct (reaches_bookkeeping (reconcile_call (S fuel) call r w)).
  - unfold active_reconciliation_of. fold ac'.
    destruct (inactive_run call).
    + rewrite bookkeeping_inactive. simpl. apply IH. exact Hseen.
    + rewrite bookkeeping_active. cbn [negb andb].
      destruct (String.eqb_spec (Hash ac') (Hash ac)) as [Heq | Hne].
      * rewrite (ContainsAccountCurrency_same_hash _ ac' ac Heq), Hseen.
        rewrite Nat.sub_diag. simpl. apply IH. exact Hseen.
      * simpl. apply IH.
        destruct (ContainsAccountCurrency (seenAccounts r) ac'); [exact Hseen |].
        simpl. rewrite ContainsAccountCurrency_insert, Hseen. apply orb_true_r.
  - rewrite Nat.sub_diag.
    destruct (active_reconciliation_of (Hash ac) call); simpl; apply IH; exact Hseen.
Qed.

Lemma active_seedings_count fuel ac calls r w :
  active_seedings (S fuel) (Hash ac) calls r w =
    (if ContainsAccountCurrency (seenAccounts r) ac then 0
     else if active_completion (S fuel) (Hash ac) calls r w then 1 else 0)%nat.
Proof.
  revert r w. induction calls as [| call rest IH]; intros r w.
  - simpl. destruct (ContainsAccountCurrency (seenAccounts r) ac); reflexivity.
  - destruct (ContainsAccountCurrency (seenAccounts r) ac) eqn:Hseen.
    { apply active_seedings_seen. exact Hseen. }
    cbn [active_seedings active_completion]. cbv zeta.
    rewrite (reconcile_call_effect fuel call r w).
    set (ac' := AccountCurrency (claimed_account call) (claimed_currency call)).
    destruct (reaches_bookkeeping (reconcile_call (S fuel) call r w)).
    + unfold active_reconciliation_of. fold ac'. rewrite andb_true_r.
      destruct (inactive_run call).
      * rewrite bookkeeping_inactive. cbn [negb andb orb]. simpl.
        rewrite IH. simpl. rewrite Hseen. reflexivity.
      * rewrite bookkeeping_active. cbn [negb andb].
        destruct (String.eqb_spec (Hash ac') (Hash ac)) as [Heq | Hne].
        -- rewrite (ContainsAccountCurrency_same_hash _ ac' ac Heq), Hseen.
           cbn [orb]. simpl. rewrite length_app. simpl.
           rewrite active_seedings_seen.
           ++ lia.
           ++ simpl. rewrite ContainsAccountCurrency_insert.
              rewrite Heq, String.eqb_refl. reflexivity.
        -- cbn [orb]. rewrite IH. simpl.
           destruct (ContainsAccountCurrency (seenAccounts r) ac') eqn:Hseen'.
           ++ rewrite Hseen. reflexivity.
           ++ simpl. rewrite ContainsAccountCurrency_insert, Hseen.
              apply String.eqb_neq in Hne. rewrite Hne. reflexivity.
    + rewrite andb_false_r. cbn [orb]. rewrite Nat.sub_diag.
      rewrite IH, Hseen.
      destruct (active_reconciliation_of (Hash ac) call); reflexivity.
Qed.

(** C6 (amended).  Over any sequence of reconciliations, each starting from
    the state the previous one left, the active-path reconciliations of an
    AccountCurrency make the inactive queue grow by exactly one entry in all
    when the account was not in the seen set at the start and at least one of
    them gets past the bookkeeping call, and by none when the account was in
    the set, as every account given in [withSeenAccounts] is.  A single
    reconciliation that gets past the bookkeeping call appends
    [{ entry, lastCheck }] always when it is an inactive-path run (the seen
    set is left alone), and exactly when the account is not yet seen when it
    is an active-path run (the account is seen afterwards); a reconciliation
    that throws before the bookkeeping call leaves queue and seen set as they
    were.  A reconciliation gets past the bookkeeping call unless the
    comparator fails with HeadBehindLive or with an error that is not a
    [ReconcilerError], or the failure callback reports an error. *)
Theorem reconciliations_seed_once
  fuel (calls : list reconciliation) r w a c amount block isInactive :
  let ac := AccountCurrency a c in
  let run := accountReconciliation (S fuel) a c amount block isInactive r w in
  active_seedings (S fuel) (Hash ac) calls r w =
    (if ContainsAccountCurrency (seenAccounts r) ac then 0
     else if active_completion (S fuel) (Hash ac) calls r w then 1 else 0)%nat /\
  (if reaches_bookkeeping run then
     inactiveQueue (reconciler_of run) =
       (inactiveQueue r ++
          if isInactive || negb (ContainsAccountCurrency (seenAccounts r) ac)
          then [InactiveEntry ac block] else [])%list /\
     seenAccounts (reconciler_of run) =
       (if isInactive || ContainsAccountCurrency (seenAccounts r) ac
        then seenAccounts r
        else <[Hash ac := VObj []]> (seenAccounts r)) /\
     (if isInactive then True
      else ContainsAccountCurrency (seenAccounts (reconciler_of run)) ac = true)
   else reconciler_of run = r) /\
  reaches_bookkeeping run =
    match compareBalance a c amount block r w with
    | (Ok cmp, _, w1, _) =>
        negb (loose_neq_zero_string (difference cmp) &&
              reports_error
                (reconciliationFailed (handler r) (reconciliationType isInactive) a c
                   (cachedBalance cmp) amount block w1).1)
    | (Throw (ReconcilerError type), _, w1, _) =>
        negb (String.eqb type RECONCILIATION_ERROR_HEAD_BEHIND_LIVE) &&
        negb (reports_error
                (reconciliationFailed (handler r) (reconciliationType isInactive) a c
                   VUndef amount block w1).1)
    | _ => false
    end /\
  (forall (args : Args W) l,
     arg_withSeenAccounts args = Some l -> ac ∈ l ->
     active_seedings (S fuel) (Hash ac) calls (constructor args) w = 0%nat).
Proof.
  cbv zeta. split_and!.
  - apply active_seedings_count.
  - rewrite (accountReconciliation_effect fuel a c amount block isInactive r w).
    destruct (reaches_bookkeeping
                (accountReconciliation (S fuel) a c amount block isInactive r w));
      [| reflexivity].
    destruct isInactive.
    + rewrite bookkeeping_inactive. split_and!; reflexivity || exact I.
    + rewrite bookkeeping_active. cbn [orb].
      destruct (ContainsAccountCurrency (seenAccounts r) (AccountCurrency a c)) eqn:Hseen;
        simpl.
      * rewrite app_nil_r. split_and!; [reflexivity | reflexivity | exact Hseen].
      * split_and!; [reflexivity | reflexivity |].
        rewrite ContainsAccountCurrency_insert, String.eqb_refl. reflexivity.
  - apply accountReconciliation_reaches.
  - intros args l Hl Hin. apply active_seedings_seen.
    apply (constructor_contains_seeded args l _ Hl Hin).
Qed.

End Seeding.

Module SeedingInstances.

Import Examples Attempts.

#[local] Existing Instance Examples.lang.
#[local] Existing Instance Examples.utils.

(** C6, as first stated, fails: a reconciliation whose failure callback
    reports an error throws before the bookkeeping.  Cached "500", claimed
    "300", a handler that answers the failure callback with an error: the
    inactive-path run does not append its entry again, and the first
    active-path run of the account neither appends it nor marks it seen. *)
Lemma throwing_reconciliation_seeds_nothing :
  trace_of (accountReconciliation 1 alice DGB (VStr "300") (block_at 100) true
              strict_reconciler tt)
    = [EvFailed RECONCILIATION_INACTIVE alice DGB (VStr "500") (VStr "300")
         (block_at 100)] /\
  outcome_of (accountReconciliation 1 alice DGB (VStr "300") (block_at 100) true
                strict_reconciler tt) = Throw (Thrown (VHost "Error")) /\
  inactiveQueue
    (reconciler_of (accountReconciliation 1 alice DGB (VStr "300") (block_at 100) true
                      strict_reconciler tt)) = [] /\
  inactiveQueue
    (reconciler_of (accountReconciliation 1 alice DGB (VStr "300") (block_at 100) false
                      strict_reconciler tt)) = [] /\
  ContainsAccountCurrency
    (seenAccounts
       (reconciler_of (accountReconciliation 1 alice DGB (VStr "300") (block_at 100)
                         false strict_reconciler tt)))
    (AccountCurrency alice DGB) = false.
Proof. split_and!; vm_compute; reflexivity. Qed.

Lemma reconciliations_seed_once_witness :
  active_seedings 1 (Hash (AccountCurrency alice DGB)) five_reconciliations
    (reconciler_at 100 true (balance_reply "500" 90)) tt = 1%nat /\
  reconciler_of (accountReconciliation 1 alice DGB (VStr "500") (block_at 105) false
                   (reconciler_at 100 true (balance_reply "500" 90)) tt)
    = reconciler_at 100 true (balance_reply "500" 90) /\
  active_seedings 1 (Hash (AccountCurrency alice DGB)) five_reconciliations
    (constructor seeded_args) tt = 0%nat.
Proof.
  destruct (reconciliations_seed_once 0 five_reconciliations
              (reconciler_at 100 true (balance_reply "500" 90)) tt
              alice DGB (VStr "500") (block_at 105) false)
    as (Hcount & Hrun & _ & Hseeded).
  split_and!.
  - exact Hcount.
  - exact Hrun.
  - apply (Hseeded seeded_args [AccountCurrency alice DGB]).
    + reflexivity.
    + apply list_elem_of_here.
Defined.

(** C8, as first stated, fails: head at 100, claimed block at 100, cached
    "500", claimed "500", but the cached balance last updated at block 101.
    The comparator fails with AccountUpdated, no difference is computed, and
    the failure callback is invoked. *)
Lemma later_balance_update_reports_failure :
  outcome_of (compareBalance alice DGB (VStr "500") (block_at 100)
                (reconciler_at 100 true (balance_reply "500" 101)) tt)
    = Throw (ReconcilerError RECONCILIATION_ERROR_ACCOUNT_UPDATED) /\
  trace_of (accountReconciliation 1 alice DGB (VStr "500") (block_at 100) false
              (reconciler_at 100 true (balance_reply "500" 101)) tt)
    = [EvFailed RECONCILIATION_ACTIVE alice DGB VUndef (VStr "500") (block_at 100);
       EvSucceeded RECONCILIATION_ACTIVE alice DGB (VStr "500") (block_at 100)].
Proof. split; vm_compute; reflexivity. Qed.

End SeedingInstances.

(** * The further properties at concrete inputs *)

Module MoreInstances.

Import Examples Batches.

#[local] Existing Instance Examples.lang.
#[local] Existing Instance Batches.utils.

Lemma head_behind_live_before_existence_witness :
  compareBalance alice DGB (VStr "500") (block_at 105)
    (reconciler_at 100 true (balance_reply "500" 90)) tt
  = (Throw (ReconcilerError RECONCILIATION_ERROR_HEAD_BEHIND_LIVE),
     reconciler_at 100 true (balance_reply "500" 90), tt, []).
Proof.
  apply (head_behind_live_before_existence alice DGB (VStr "500") (block_at 105)
           (reconciler_at 100 true (balance_reply "500" 90)) tt
           (Promise (inr (block_at 100))) tt (block_at 100) (VNum 105) (VNum 100));
    reflexivity.
Defined.

Lemma account_updated_after_claimed_block_witness :
  compareBalance alice DGB (VStr "500") (block_at 100)
    (reconciler_at 200 true (balance_reply "500" 190)) tt
  = (Throw (ReconcilerError RECONCILIATION_ERROR_ACCOUNT_UPDATED),
     reconciler_at 200 true (balance_reply "500" 190), tt, []).
Proof.
  apply (account_updated_after_claimed_block alice DGB (VStr "500") (block_at 100)
           (reconciler_at 200 true (balance_reply "500" 190)) tt
           (Promise (inr (block_at 200))) tt (block_at 200) (VNum 100) (VNum 200)
           (VBool true) tt (balance_reply "500" 190) tt
           (VObj [("value", VStr "500"); ("currency", DGB)]) (block_at 190) (VNum 190));
    reflexivity.
Defined.

Lemma compareBalance_completes_witness :
  compareBalance alice DGB (VStr "300") (block_at 100)
    (reconciler_at 100 true (balance_reply "500" 90)) tt
  = (Ok {| difference := VStr "200"; cachedBalance := VStr "500"; headIndex := VNum 100 |},
     reconciler_at 100 true (balance_reply "500" 90), tt, []).
Proof.
  exact (compareBalance_completes alice DGB (VStr "300") (block_at 100)
           (reconciler_at 100 true (balance_reply "500" 90)) tt
           (Promise (inr (block_at 100))) tt (block_at 100) (VNum 100) (VNum 100)
           (VBool true) tt (balance_reply "500" 90) tt
           (VObj [("value", VStr "500"); ("currency", DGB)]) (block_at 90) (VNum 90)
           eq_refl eq_refl eq_refl eq_refl eq_refl eq_refl eq_refl eq_refl eq_refl
           eq_refl eq_refl eq_refl).
Defined.

Lemma unclassified_error_is_rethrown_witness :
  accountReconciliation 1 alice DGB (VStr "500") VUndef false
    (reconciler_at 100 true (balance_reply "500" 90)) tt
  = (Throw TypeError, reconciler_at 100 true (balance_reply "500" 90), tt, []).
Proof.
  apply (unclassified_error_is_rethrown 0 alice DGB (VStr "500") VUndef false
           (reconciler_at 100 true (balance_reply "500" 90)) tt TypeError
           (reconciler_at 100 true (balance_reply "500" 90)) tt []).
  - reflexivity.
  - intros type. discriminate.
Defined.

Lemma match_reports_success_only_witness :
  trace_of (accountReconciliation 1 alice DGB (VStr "500") (block_at 100) true
              (reconciler_at 100 true (balance_reply "500" 90)) tt)
  = [EvSucceeded RECONCILIATION_INACTIVE alice DGB (VStr "500") (block_at 100)].
Proof.
  exact (proj1 (match_reports_success_only 0 alice DGB (VStr "500") (block_at 100) true
                  (reconciler_at 100 true (balance_reply "500" 90)) tt
                  {| difference := VStr "0"; cachedBalance := VStr "500";
                     headIndex := VNum 100 |}
                  (reconciler_at 100 true (balance_reply "500" 90)) tt []
                  eq_refl eq_refl)).
Defined.

Lemma active_loop_drains_stale_events_witness :
  reconcileActiveAccounts 3
    (set_changeQueue [change_at "a" 0; change_at "b" 0]
       (reconciler_at 100 true (balance_reply "500" 90))) tt
  = (Throw TypeError,
     set_changeQueue []
       (set_changeQueue [change_at "a" 0; change_at "b" 0]
          (reconciler_at 100 true (balance_reply "500" 90))), tt, []).
Proof.
  apply (active_loop_drains_stale_events 3
           (set_changeQueue [change_at "a" 0; change_at "b" 0]
              (reconciler_at 100 true (balance_reply "500" 90))) tt).
  - repeat constructor.
  - simpl. lia.
Defined.

Lemma active_loop_stops_at_first_live_event_witness :
  exists account,
    get_prop (change_at "b" 5) "account_identifier" = inr account /\
    reconcileActiveAccounts 2
      (set_changeQueue [change_at "a" 0; change_at "b" 5; change_at "c" 6]
         (reconciler_at 100 true (balance_reply "500" 90))) tt
    = (Throw TypeError,
       set_changeQueue [change_at "c" 6]
         (set_changeQueue [change_at "a" 0; change_at "b" 5; change_at "c" 6]
            (reconciler_at 100 true (balance_reply "500" 90))), tt,
       [EvFetch mainnet account VNull]).
Proof.
  apply (active_loop_stops_at_first_live_event 2
           (set_changeQueue [change_at "a" 0; change_at "b" 5; change_at "c" 6]
              (reconciler_at 100 true (balance_reply "500" 90))) tt
           [change_at "a" 0] (change_at "b" 5) [change_at "c" 6]
           (block_at 5) (VNum 5) (VObj [("index", VNum 5)])).
  - reflexivity.
  - repeat constructor.
  - reflexivity.
  - reflexivity.
  - reflexivity.
  - reflexivity.
  - simpl. lia.
Defined.


Lemma inactive_pass_loses_the_popped_entry_witness :
  exists e,
    outcome_of (reconcileInactiveAccounts_pass 1
                  (bookkeeping (true, AccountCurrency alice DGB, block_at 1000)
                     (reconciler_at 1400 true (balance_reply "500" 1000)) tt) tt)
      = Throw e /\
    reconciler_of (reconcileInactiveAccounts_pass 1
                     (bookkeeping (true, AccountCurrency alice DGB, block_at 1000)
                        (reconciler_at 1400 true (balance_reply "500" 1000)) tt) tt)
      = set_inactiveQueue []
          (bookkeeping (true, AccountCurrency alice DGB, block_at 1000)
             (reconciler_at 1400 true (balance_reply "500" 1000)) tt).
Proof.
  apply (inactive_pass_loses_the_popped_entry 1
           (InactiveEntry (AccountCurrency alice DGB) (block_at 1000)) []
           (bookkeeping (true, AccountCurrency alice DGB, block_at 1000)
              (reconciler_at 1400 true (balance_reply "500" 1000)) tt) tt
           (Promise (inr (block_at 1400))) tt (VHost "[object Promise]")).
  - reflexivity.
  - right. exists (AccountCurrency alice DGB), (block_at 1000). reflexivity.
  - reflexivity.
  - reflexivity.
Defined.

Lemma inactive_queue_holds_pushed_entries_witness :
  inactive_front_ready (block_at 5) (constructor seeded_args) tt
  = (Ok true, constructor seeded_args, tt, []).
Proof.
  destruct (inactive_queue_holds_pushed_entries (constructor seeded_args))
    as [Hfresh Hkept].
  destruct (Hkept (Hfresh seeded_args)) as (_ & _ & _ & Hready).
  apply Hready. discriminate.
Defined.

Lemma queueChanges_appends_in_order_witness :
  queueChanges (block_at 7) [change_at "a" 7; change_at "b" 7]
    (set_changeQueue [change_at "c" 6] (reconciler_at 100 true (balance_reply "500" 90))) tt
  = (Ok (VUndef, [change_at "a" 7; change_at "b" 7]),
     set_changeQueue [change_at "c" 6; change_at "a" 7; change_at "b" 7]
       (set_changeQueue [change_at "c" 6]
          (reconciler_at 100 true (balance_reply "500" 90))), tt, []).
Proof.
  apply (queueChanges_appends_in_order (block_at 7) [change_at "a" 7; change_at "b" 7]
           (set_changeQueue [change_at "c" 6]
              (reconciler_at 100 true (balance_reply "500" 90))) tt).
  - constructor.
  - reflexivity.
Defined.

Lemma queueChanges_throws_on_unmatched_watched_account_witness :
  queueChanges (block_at 7) [change_at "a" 7]
    (constructor (configured_args None (Some [watched "a"; watched "w"]))) tt
  = (Throw ReferenceError,
     constructor (configured_args None (Some [watched "a"; watched "w"])), tt, []).
Proof.
  apply (queueChanges_throws_on_unmatched_watched_account (block_at 7) [change_at "a" 7]
           (constructor (configured_args None (Some [watched "a"; watched "w"]))) tt
           [watched "a"] (watched "w") []).
  - reflexivity.
  - repeat constructor.
  - reflexivity.
Defined.

Lemma queueChanges_backlog_gate_witness :
  queueChanges (block_at 7) [change_at "a" 7]
    (set_highWaterMark (VNum 50) (constructor (configured_args (Some (VBool false)) None)))
    tt
  = (Ok (VNull, [change_at "a" 7]),
     set_highWaterMark (VNum 50) (constructor (configured_args (Some (VBool false)) None)),
     tt, []).
Proof.
  exact (queueChanges_backlog_gate (block_at 7) [change_at "a" 7]
           (set_highWaterMark (VNum 50)
              (constructor (configured_args (Some (VBool false)) None))) tt (VNum 7)
           (List.Forall_nil _) eq_refl eq_refl).
Defined.

Lemma constructed_gate_never_drops_witness :
  outcome_of (queueChanges (block_at 7) [change_at "a" 7]
                (constructor (configured_args (Some (VBool false)) None)) tt)
    = Ok (VUndef, [change_at "a" 7]) /\
  changeQueue (reconciler_of
                 (queueChanges (block_at 7) [change_at "a" 7]
                    (constructor (configured_args (Some (VBool false)) None)) tt))
    = [change_at "a" 7].
Proof.
  apply (constructed_gate_never_drops (configured_args (Some (VBool false)) None)
           (block_at 7) [change_at "a" 7] tt 7).
  - reflexivity.
  - constructor.
  - reflexivity.
  - lia.
Defined.

Lemma extractAmount_returns_first_match_witness :
  extractAmount [amount_of "1" BTC; amount_of "500" DGB; amount_of "7" DGB] DGB
  = inr (amount_of "500" DGB).
Proof.
  apply (extractAmount_returns_first_match [amount_of "1" BTC] (amount_of "500" DGB)
           [amount_of "7" DGB] DGB DGB).
  - constructor; [| constructor]. exists BTC. split; [reflexivity | discriminate].
  - reflexivity.
  - reflexivity.
Defined.

Lemma extractAmount_sound_and_fails_without_match_witness :
  extractAmount [amount_of "1" BTC] DGB = inl could_not_extract /\
  amount_of "500" DGB ∈ [amount_of "1" BTC; amount_of "500" DGB].
Proof.
  split.
  - apply (proj2 (extractAmount_sound_and_fails_without_match [amount_of "1" BTC] DGB)).
    constructor; [| constructor]. exists BTC. split; [reflexivity | discriminate].
  - refine (proj1 (proj1 (extractAmount_sound_and_fails_without_match
                            [amount_of "1" BTC; amount_of "500" DGB] DGB)
                     (amount_of "500" DGB) _)).
    reflexivity.
Defined.

Lemma new_AccountCurrency_forms_agree_witness :
  new_AccountCurrency [account "a"; DGB] =
    new_AccountCurrency [VObj [("accountIdentifier", account "a"); ("currency", DGB)]].
Proof.
  apply (new_AccountCurrency_forms_agree
           [("accountIdentifier", account "a"); ("currency", DGB)] (account "a") DGB).
  - reflexivity.
  - reflexivity.
  - reflexivity.
  - exists VUndef. split; reflexivity.
Defined.

Lemma new_AccountCurrency_edges_witness :
  new_AccountCurrency [VNull; DGB] = inl TypeError /\
  new_AccountCurrency [account "a"; DGB] = inr (watched "a").
Proof.
  destruct (new_AccountCurrency_edges [("address", VStr "a")] VUndef [DGB]
              eq_refl eq_refl) as (Hnull & Hpositional & _).
  split; [exact Hnull | exact Hpositional].
Defined.

End MoreInstances.
